(** * average.py: averaging frequency-response measurements

    A shallow embedding of [src/average.py] and the properties of its
    pipeline: directory resolver, stale-output remover, CSV aggregator and
    viewer.

    Modelling decisions.
    - A file is represented by what [pd.read_csv] makes of it: either the
      call raises ([Garbled]) or it returns a table ([Table df]).  Writing a
      frame with [to_csv] stores [Table] of that frame.
    - A directory is its name and the list of its regular files in the order
      in which [Path.glob] enumerates them.
    - Characters are code points below 256; [str.strip] removes the code
      points for which [str.isspace] holds.
    - pandas computes on binary floating-point numbers.  The carrier of the
      numeric cells, the mean of a non-empty series and rounding to six
      decimals are parameters ([NumOps]); a missing value (NaN) is a cell of
      its own.
    - [print] appends an event to a log; the tkinter window is the event
      [Plot].
    - [Section Script] is the script on a target the operating system lets
      it work in: the path has been classified ([path_status]), and
      [Path.unlink], [to_csv] and the window succeed.  [Module Os] is the
      script with the checks of lines 20-25 made on the path and with those
      three calls able to raise; [Os_main_none] relates the two. *)

From Stdlib Require Import List String Ascii Bool Arith ZArith Lia.
From Stdlib Require Import Sorting.Sorted Sorting.Permutation.
Import ListNotations.
Local Open Scope string_scope.
Local Open Scope list_scope.

(* ================================================================== *)
(** ** Python strings *)

Module PyStr.
Local Open Scope string_scope.

(** [str.isspace] on the code points below 256. *)
Definition is_space (c : ascii) : bool :=
  let n := nat_of_ascii c in
  (((9 <=? n) && (n <=? 13)) || ((28 <=? n) && (n <=? 32))
   || (n =? 133) || (n =? 160))%nat.

Fixpoint all_space (s : string) : bool :=
  match s with
  | EmptyString => true
  | String c s' => is_space c && all_space s'
  end.

Fixpoint lstrip (s : string) : string :=
  match s with
  | EmptyString => EmptyString
  | String c s' => if is_space c then lstrip s' else s
  end.

Fixpoint rstrip (s : string) : string :=
  match s with
  | EmptyString => EmptyString
  | String c s' =>
      match rstrip s' with
      | EmptyString => if is_space c then EmptyString else String c EmptyString
      | r => String c r
      end
  end.

(** [s.strip()] *)
Definition strip (s : string) : string := rstrip (lstrip s).

Definition first_char (s : string) : option ascii :=
  match s with
  | EmptyString => None
  | String c _ => Some c
  end.

Fixpoint last_char (s : string) : option ascii :=
  match s with
  | EmptyString => None
  | String c EmptyString => Some c
  | String _ s' => last_char s'
  end.

Definition opt_space (o : option ascii) : bool :=
  match o with
  | None => false
  | Some c => is_space c
  end.

(** [s.endswith(suffix)] *)
Fixpoint endswith (s suffix : string) : bool :=
  (s =? suffix) ||
  match s with
  | EmptyString => false
  | String _ s' => endswith s' suffix
  end.

(** A string without white space at either end. *)
Definition trimmed (s : string) : Prop :=
  opt_space (first_char s) = false /\ opt_space (last_char s) = false.

(** [t] is [s] with white space removed at both ends, and nothing else. *)
Definition is_strip_of (s t : string) : Prop :=
  trimmed t /\
  exists l r, s = l ++ t ++ r /\ all_space l = true /\ all_space r = true.

End PyStr.

(* ================================================================== *)
(** ** Numbers, exceptions *)

(** The numeric values of a table, with the two operations the aggregator
    applies to them: [Series.mean] on a series without missing values and
    [round(_, 6)].  [num_leb] is the order in which [groupby] sorts numeric
    keys. *)
Class NumOps : Type := {
  num : Type;
  num_eq_dec : forall x y : num, {x = y} + {x <> y};
  num_leb : num -> num -> bool;
  mean : list num -> num;
  round6 : num -> num
}.

(** [num_leb] is a total order. *)
Class NumOrder (N : NumOps) : Prop := {
  num_leb_total : forall x y : num, num_leb x y = true \/ num_leb y x = true;
  num_leb_trans : forall x y z : num,
    num_leb x y = true -> num_leb y z = true -> num_leb x z = true;
  num_leb_antisym : forall x y : num,
    num_leb x y = true -> num_leb y x = true -> x = y
}.

(** The [ValueError]s raised by the script itself (lines 21, 23, 25 and 49)
    and by [pd.concat] on an empty list. *)
Inductive value_error : Type :=
| DirMissing
| NotADirectory
| DirUnreadable
| NoCsvFiles
| NoObjectsToConcatenate.

Inductive exn : Type :=
| ValueError (v : value_error)
| KeyError (column : string)
| TypeError
| InvalidIndexError
| ParseError
| OSError
| TclError.

(** [isinstance(e, ValueError)] *)
Definition is_ValueError (e : exn) : bool :=
  match e with
  | ValueError _ => true
  | _ => false
  end.

Inductive result (A : Type) : Type :=
| Ok (a : A)
| Raise (e : exn).
Arguments Ok {A} a.
Arguments Raise {A} e.

Definition rbind {A B} (r : result A) (k : A -> result B) : result B :=
  match r with
  | Ok a => k a
  | Raise e => Raise e
  end.

Fixpoint traverse {A B} (f : A -> result B) (l : list A) : result (list B) :=
  match l with
  | [] => Ok []
  | a :: l' =>
      rbind (f a) (fun b => rbind (traverse f l') (fun bs => Ok (b :: bs)))
  end.

(* ================================================================== *)
(** ** Data frames *)

Definition FREQ : string := "Frequency(Hz)".
Definition MAG : string := "Magnitude(dB)".

Section Frames.
Context {N : NumOps}.

(** A cell as [read_csv] types it: a number, a string, or missing. *)
Inductive cell : Type :=
| CNum (x : num)
| CStr (s : string)
| CNaN.

Definition cell_eq_dec (a b : cell) : {a = b} + {a <> b}.
Proof.
  decide equality; [apply num_eq_dec | apply string_dec].
Defined.

Definition cell_eqb (a b : cell) : bool :=
  if cell_eq_dec a b then true else false.

Definition notna (c : cell) : bool :=
  match c with
  | CNaN => false
  | _ => true
  end.

Definition is_str (c : cell) : bool :=
  match c with
  | CStr _ => true
  | _ => false
  end.

(** The order of group keys: numbers ascending, then strings in code-point
    order.  (A missing value is never a key.) *)
Definition key_leb (a b : cell) : bool :=
  match a, b with
  | CNum x, CNum y => num_leb x y
  | CNum _, _ => true
  | CStr _, CNum _ => false
  | CStr s, CStr t => String.leb s t
  | CStr _, CNaN => true
  | CNaN, CNaN => true
  | CNaN, _ => false
  end.

Record DataFrame : Type := {
  columns : list string;
  rows : list (list cell)
}.

Definition has_column (df : DataFrame) (name : string) : bool :=
  existsb (String.eqb name) (columns df).

(** The cell of a row under the header [name]; missing when the frame has
    no such column. *)
Fixpoint cell_at (cols : list string) (row : list cell) (name : string) : cell :=
  match cols, row with
  | c :: cols', v :: row' =>
      if String.eqb c name then v else cell_at cols' row' name
  | _, _ => CNaN
  end.

(** Lines 61-62: [x.strip() if isinstance(x, str) else x] *)
Definition strip_cell (c : cell) : cell :=
  match c with
  | CStr s => CStr (PyStr.strip s)
  | _ => c
  end.

(** Lines 61-62: the headers and every cell are passed through [strip]. *)
Definition normalize (df : DataFrame) : DataFrame :=
  {| columns := map PyStr.strip (columns df);
     rows := map (map strip_cell) (rows df) |}.

Fixpoint distinct (l : list string) : bool :=
  match l with
  | [] => true
  | x :: l' => negb (existsb (String.eqb x) l') && distinct l'
  end.

Fixpoint union_columns (acc cols : list string) : list string :=
  match cols with
  | [] => acc
  | c :: cols' =>
      union_columns (if existsb (String.eqb c) acc then acc else acc ++ [c]) cols'
  end.

Definition combined_columns (dfs : list DataFrame) : list string :=
  fold_left (fun acc df => union_columns acc (columns df)) dfs [].

Definition reindex (cols : list string) (df : DataFrame) : list (list cell) :=
  map (fun row => map (cell_at (columns df) row) cols) (rows df).

(** Line 76: [pd.concat(dataframes, ignore_index=True)].  The columns are
    the union of the frames' columns in order of first appearance, the rows
    follow in list order, a cell a frame does not have is missing.  A frame
    with a repeated header cannot be realigned: the model raises for it. *)
Definition concat (dfs : list DataFrame) : result DataFrame :=
  match dfs with
  | [] => Raise (ValueError NoObjectsToConcatenate)
  | _ =>
      if forallb (fun df => distinct (columns df)) dfs
      then Ok {| columns := combined_columns dfs;
                 rows := flat_map (reindex (combined_columns dfs)) dfs |}
      else Raise InvalidIndexError
  end.

Fixpoint insert_key (k : cell) (l : list cell) : list cell :=
  match l with
  | [] => [k]
  | x :: l' => if key_leb k x then k :: l else x :: insert_key k l'
  end.

Fixpoint sort_keys (l : list cell) : list cell :=
  match l with
  | [] => []
  | x :: l' => insert_key x (sort_keys l')
  end.

Definition frequency_of (df : DataFrame) (row : list cell) : cell :=
  cell_at (columns df) row FREQ.

Definition magnitude_of (df : DataFrame) (row : list cell) : cell :=
  cell_at (columns df) row MAG.

(** The keys of [groupby("Frequency(Hz)")]: the distinct values of the
    column, missing values dropped, sorted. *)
Definition group_keys (df : DataFrame) : list cell :=
  sort_keys (nodup cell_eq_dec (filter notna (map (frequency_of df) (rows df)))).

(** The [Magnitude(dB)] series of the group of key [k], in row order. *)
Definition group (df : DataFrame) (k : cell) : list cell :=
  map (magnitude_of df) (filter (fun row => cell_eqb (frequency_of df row) k) (rows df)).

Fixpoint numbers (x : list cell) : list num :=
  match x with
  | [] => []
  | CNum v :: x' => v :: numbers x'
  | _ :: x' => numbers x'
  end.

(** Line 79: [lambda x: round(x.mean(), 6)].  The mean skips missing
    values and is missing when nothing is left; a string in the series
    makes it raise. *)
Definition rounded_mean (x : list cell) : result cell :=
  if existsb is_str x then Raise TypeError
  else match numbers x with
       | [] => Ok CNaN
       | v :: vs => Ok (CNum (round6 (mean (v :: vs))))
       end.

(** Lines 78-80: [groupby("Frequency(Hz)", as_index=False).agg(...)]. *)
Definition groupby_agg (df : DataFrame) : result DataFrame :=
  if negb (has_column df FREQ) then Raise (KeyError FREQ)
  else if negb (has_column df MAG) then Raise (KeyError MAG)
  else
    rbind (traverse (fun k => rbind (rounded_mean (group df k))
                                    (fun m => Ok [k; m]))
                    (group_keys df))
          (fun rs => Ok {| columns := [FREQ; MAG]; rows := rs |}).

End Frames.

(* ================================================================== *)
(** ** The file system, the log and the monad of the script *)

Section Script.
Context {N : NumOps}.

(** What [pd.read_csv] makes of a file. *)
Inductive content : Type :=
| Garbled
| Table (df : DataFrame).

(** The regular files of the target directory, in the order of
    [Path.glob]. *)
Definition files : Type := list (string * content).

(** What the command-line argument points at (lines 20-25). *)
Inductive path_status : Type :=
| NoSuchPath
| NotDir
| NotReadable
| Dir (name : string).

(** One constructor per [print] of the script, and [Plot] for the window
    of [show_gui]. *)
Inductive event : Type :=
| Deleted (name : string)
| NotPresent (name : string)
| FoundFiles (names : list string)
| ReadFailed (file : string)
| NothingReadSkip
| NoUsableData
| Saved (name : string)
| ViewerReadFailed (file : string)
| ColumnsMissing
| Plot (df : DataFrame)
| NotGenerated
| ErrorMessage (e : exn)
| UnknownError (e : exn).

Record state : Type := {
  fs : files;
  log : list event
}.

Definition M (A : Type) : Type := state -> result A * state.

Definition ret {A} (a : A) : M A := fun st => (Ok a, st).

Definition bind {A B} (m : M A) (k : A -> M B) : M B :=
  fun st =>
    match m st with
    | (Ok a, st') => k a st'
    | (Raise e, st') => (Raise e, st')
    end.

Definition raise {A} (e : exn) : M A := fun st => (Raise e, st).

(** [try: m except Exception as e: ...] hands the outcome to the caller. *)
Definition try {A} (m : M A) : M (result A) :=
  fun st => let (r, st') := m st in (Ok r, st').

Definition lift {A} (r : result A) : M A := fun st => (r, st).

Definition print (e : event) : M unit :=
  fun st => (Ok tt, {| fs := fs st; log := log st ++ [e] |}).

Definition get_fs : M files := fun st => (Ok (fs st), st).

Definition put_fs (f : files) : M unit :=
  fun st => (Ok tt, {| fs := f; log := log st |}).

Notation "x <- m ;; k" := (bind m (fun x => k))
  (at level 61, m at next level, right associativity).
Notation "m ;;; k" := (bind m (fun _ => k))
  (at level 61, right associativity).

Fixpoint lookup (f : files) (name : string) : option content :=
  match f with
  | [] => None
  | (n, c) :: f' => if String.eqb n name then Some c else lookup f' name
  end.

(** [path.exists()] *)
Definition exists_file (f : files) (name : string) : bool :=
  existsb (fun e => String.eqb (fst e) name) f.

(** [path.unlink()] *)
Definition unlink (f : files) (name : string) : files :=
  filter (fun e => negb (String.eqb (fst e) name)) f.

(** Opening [name] for writing: the file is replaced in place, or created
    after the others. *)
Fixpoint write (f : files) (name : string) (c : content) : files :=
  match f with
  | [] => [(name, c)]
  | (n, c') :: f' =>
      if String.eqb n name then (n, c) :: f' else (n, c') :: write f' name c
  end.

(** [directory.glob("*.csv")] *)
Definition glob_csv (f : files) : list string :=
  filter (fun n => PyStr.endswith n ".csv") (map fst f).

(** [f"{directory.name}.csv"] *)
Definition final_csv (directory : string) : string :=
  (directory ++ ".csv")%string.

(** [pd.read_csv(file)] *)
Definition read_csv (file : string) : M DataFrame :=
  f <- get_fs ;;
  match lookup f file with
  | Some (Table df) => ret df
  | _ => raise ParseError
  end.

(** [final_df.to_csv(path, index=False)], when the directory can be
    written; [Os.to_csv] is the call that can be refused. *)
Definition to_csv (df : DataFrame) (path : string) : M unit :=
  f <- get_fs ;;
  put_fs (write f path (Table df)).

(* ================================================================== *)
(** ** The script *)

(** Lines 11-27, on the outcome of the checks; [Os.get_directory] makes
    the checks. *)
Definition get_directory (target : path_status) : M string :=
  match target with
  | NoSuchPath => raise (ValueError DirMissing)
  | NotDir => raise (ValueError NotADirectory)
  | NotReadable => raise (ValueError DirUnreadable)
  | Dir name => ret name
  end.

(** Lines 30-40, when the file can be deleted; in [Os.remove_final_csv]
    the deletion can be refused. *)
Definition remove_final_csv (directory : string) : M unit :=
  let final_csv_name := final_csv directory in
  f <- get_fs ;;
  if exists_file f final_csv_name
  then put_fs (unlink f final_csv_name) ;;; print (Deleted final_csv_name)
  else print (NotPresent final_csv_name).

(** How the [for] loop of lines 57-70 ends: by running out of files, or by
    the [return] of line 69. *)
Inductive loop_exit : Type :=
| Completed (dataframes : list DataFrame)
| Returned.

(** Lines 57-70. *)
Fixpoint read_loop (csv_files : list string) (dataframes : list DataFrame)
  : M loop_exit :=
  match csv_files with
  | [] => ret (Completed dataframes)
  | file :: rest =>
      r <- try (read_csv file) ;;
      match r with
      | Ok df => read_loop rest (dataframes ++ [normalize df])
      | Raise _ =>
          print (ReadFailed file) ;;;
          match dataframes with
          | [] => print NothingReadSkip ;;; ret Returned
          | _ => read_loop rest dataframes
          end
      end
  end.

(** Line 55. *)
Definition candidates (directory : string) (csv_files : list string) : list string :=
  filter (fun file => negb (String.eqb file (final_csv directory))) csv_files.

(** Lines 43-83. *)
Definition process_csv_files (directory : string) : M unit :=
  f <- get_fs ;;
  let csv_files := glob_csv f in
  match csv_files with
  | [] => raise (ValueError NoCsvFiles)
  | _ =>
      print (FoundFiles csv_files) ;;;
      let final_csv_path := final_csv directory in
      let csv_files := candidates directory csv_files in
      e <- read_loop csv_files [] ;;
      match e with
      | Returned => ret tt
      | Completed [] => print NoUsableData
      | Completed dataframes =>
          combined_df <- lift (concat dataframes) ;;
          final_df <- lift (groupby_agg combined_df) ;;
          to_csv final_df final_csv_path ;;;
          print (Saved final_csv_path)
      end
  end.

(** Lines 86-126, when the window can be opened; in [Os.show_gui] it can
    be refused. *)
Definition show_gui (file_path : string) : M unit :=
  r <- try (read_csv file_path) ;;
  match r with
  | Raise _ => print (ViewerReadFailed file_path)
  | Ok df =>
      if negb (has_column df FREQ) || negb (has_column df MAG)
      then print ColumnsMissing
      else print (Plot df)
  end.

(** Lines 135-143, the body of the [try]. *)
Definition main_body (target : path_status) : M unit :=
  directory <- get_directory target ;;
  remove_final_csv directory ;;;
  process_csv_files directory ;;;
  f <- get_fs ;;
  if exists_file f (final_csv directory)
  then show_gui (final_csv directory)
  else print NotGenerated.

(** Lines 130-149: the exit status of the process and the final state. *)
Definition main (target : path_status) (st : state) : Z * state :=
  match main_body target st with
  | (Ok _, st') => (0%Z, st')
  | (Raise e, st') =>
      (1%Z, {| fs := fs st';
               log := log st' ++ [if is_ValueError e then ErrorMessage e
                                  else UnknownError e] |})
  end.

End Script.

(* ================================================================== *)
(** ** The vocabulary of the properties *)

Section Vocabulary.
Context {N : NumOps}.

(** The measurement rows of a frame: the cells under the two required
    headers, row by row. *)
Definition measurements (df : DataFrame) : list (cell * cell) :=
  map (fun row => (frequency_of df row, magnitude_of df row)) (rows df).

(** Strictly ascending keys. *)
Definition key_lt (a b : cell) : Prop := key_leb a b = true /\ a <> b.


(** The state after some more [print]s. *)
Definition with_log (st : state) (evs : list event) : state :=
  {| fs := fs st; log := log st ++ evs |}.

(** [pd.read_csv] returns a table for [file]. *)
Definition parses (f : files) (file : string) : bool :=
  match lookup f file with
  | Some (Table _) => true
  | _ => false
  end.

(** The tables of the files of [names] that parse, in list order. *)
Definition tables (f : files) (names : list string) : list DataFrame :=
  flat_map (fun file => match lookup f file with
                        | Some (Table df) => [df]
                        | _ => []
                        end) names.

(** The candidate input files of a run on directory [d] (lines 47-55). *)
Definition inputs (d : string) (f : files) : list string :=
  candidates d (glob_csv f).

(** The measurement rows of all input files that parse, headers and cells
    stripped. *)
Definition input_rows (d : string) (f : files) : list (cell * cell) :=
  flat_map measurements (map normalize (tables f (inputs d f))).

(** The exit of the loop of lines 57-70 and what it prints, as a function
    of the directory listing. *)
Fixpoint scan (f : files) (csv_files : list string) (dataframes : list DataFrame)
  : loop_exit * list event :=
  match csv_files with
  | [] => (Completed dataframes, [])
  | file :: rest =>
      match lookup f file with
      | Some (Table df) => scan f rest (dataframes ++ [normalize df])
      | _ =>
          match dataframes with
          | [] => (Returned, [ReadFailed file; NothingReadSkip])
          | _ => (fst (scan f rest dataframes),
                  ReadFailed file :: snd (scan f rest dataframes))
          end
      end
  end.

(** Lines 76-80: the combined table, grouped and averaged. *)
Definition aggregate (dataframes : list DataFrame) : result DataFrame :=
  rbind (concat dataframes) groupby_agg.

(** The message of line 38 or line 40. *)
Definition removal_message (d : string) (f : files) : event :=
  if exists_file f (final_csv d) then Deleted (final_csv d)
  else NotPresent (final_csv d).

(** The message of line 145 or line 148. *)
Definition failure_message (e : exn) : event :=
  if is_ValueError e then ErrorMessage e else UnknownError e.



(** The entries of a listing that [glob("*.csv")] matches. *)
Definition csv_only (f : files) : files :=
  filter (fun e => PyStr.endswith (fst e) ".csv") f.

End Vocabulary.

(* ================================================================== *)
(** ** The script when the operating system refuses a call

    The definitions of [Section Script] describe a run on a target the
    operating system lets the script work in: the three calls below that
    reach outside pandas succeed there.  [Os] embeds the same functions
    with those calls able to raise, and with the checks of lines 20-25
    made on what the path is. *)

Module Os.

(** What the operating system refuses during one run: [Path.unlink] of
    line 37, [to_csv] of line 82, and the window of lines 101-126
    ([tk.Tk()] and what follows it). *)
Record faults : Type := {
  unlink_raises : bool;
  to_csv_raises : bool;
  window_raises : bool
}.

(** What lines 20-25 ask about the path of the command line. *)
Record path : Type := {
  path_exists : bool;
  path_is_dir : bool;
  path_readable : bool;
  path_name : string
}.

Section Faults.
Context {N : NumOps}.
Variable E : faults.

Notation "x <- m ;; k" := (bind m (fun x => k))
  (at level 61, m at next level, right associativity).
Notation "m ;;; k" := (bind m (fun _ => k))
  (at level 61, right associativity).

(** Lines 11-27. *)
Definition get_directory (p : path) : M string :=
  if negb (path_exists p) then raise (ValueError DirMissing)
  else if negb (path_is_dir p) then raise (ValueError NotADirectory)
  else if negb (path_readable p) then raise (ValueError DirUnreadable)
  else ret (path_name p).

(** Lines 30-40. *)
Definition remove_final_csv (directory : string) : M unit :=
  let final_csv_name := final_csv directory in
  f <- get_fs ;;
  if exists_file f final_csv_name
  then (if unlink_raises E then raise OSError
        else put_fs (unlink f final_csv_name)) ;;;
       print (Deleted final_csv_name)
  else print (NotPresent final_csv_name).

(** [final_df.to_csv(path, index=False)] *)
Definition to_csv (df : DataFrame) (path : string) : M unit :=
  if to_csv_raises E then raise OSError
  else f <- get_fs ;; put_fs (write f path (Table df)).

(** Lines 43-83. *)
Definition process_csv_files (directory : string) : M unit :=
  f <- get_fs ;;
  let csv_files := glob_csv f in
  match csv_files with
  | [] => raise (ValueError NoCsvFiles)
  | _ =>
      print (FoundFiles csv_files) ;;;
      let final_csv_path := final_csv directory in
      let csv_files := candidates directory csv_files in
      e <- read_loop csv_files [] ;;
      match e with
      | Returned => ret tt
      | Completed [] => print NoUsableData
      | Completed dataframes =>
          combined_df <- lift (concat dataframes) ;;
          final_df <- lift (groupby_agg combined_df) ;;
          to_csv final_df final_csv_path ;;;
          print (Saved final_csv_path)
      end
  end.

(** Lines 86-126. *)
Definition show_gui (file_path : string) : M unit :=
  r <- try (read_csv file_path) ;;
  match r with
  | Raise _ => print (ViewerReadFailed file_path)
  | Ok df =>
      if negb (has_column df FREQ) || negb (has_column df MAG)
      then print ColumnsMissing
      else if window_raises E then raise TclError
           else print (Plot df)
  end.

(** Lines 135-143, the body of the [try]. *)
Definition main_body (p : path) : M unit :=
  directory <- get_directory p ;;
  remove_final_csv directory ;;;
  process_csv_files directory ;;;
  f <- get_fs ;;
  if exists_file f (final_csv directory)
  then show_gui (final_csv directory)
  else print NotGenerated.

(** Lines 130-149: the exit status of the process and the final state. *)
Definition main (p : path) (st : state) : Z * state :=
  match main_body p st with
  | (Ok _, st') => (0%Z, st')
  | (Raise e, st') =>
      (1%Z, {| fs := fs st';
               log := log st' ++ [if is_ValueError e then ErrorMessage e
                                  else UnknownError e] |})
  end.

End Faults.

(** A run in which nothing is refused. *)
Definition none : faults :=
  {| unlink_raises := false; to_csv_raises := false; window_raises := false |}.

(** A path that passes the three checks of lines 20-25. *)
Definition usable (p : path) : bool :=
  path_exists p && path_is_dir p && path_readable p.

(** The outcome of the checks of lines 20-25. *)
Definition status (p : path) : path_status :=
  if negb (path_exists p) then NoSuchPath
  else if negb (path_is_dir p) then NotDir
  else if negb (path_readable p) then NotReadable
  else Dir (path_name p).

End Os.

(* ================================================================== *)
(** ** Example data *)

(** A number system to run the model on: integers that count millionths,
    the mean as the floor of the exact mean, and rounding to six decimals
    as the identity. *)
Definition Zmean (l : list Z) : Z :=
  (fold_right Z.add 0 l / Z.of_nat (List.length l))%Z.

#[export] Instance millionths : NumOps := {|
  num := Z;
  num_eq_dec := Z.eq_dec;
  num_leb := Z.leb;
  mean := Zmean;
  round6 := fun x => x
|}.

Module Sweep.

(** The example of the spec: [a.csv] with the rows (100, -3.0) and
    (200, -6.0), [b.csv] with (100, -3.5) and (200, -6.5), here with padded
    headers in [a.csv] and a third column in [b.csv]. *)
Definition a_csv : DataFrame :=
  {| columns := [" Frequency(Hz) "; "Magnitude(dB)  "];
     rows := [[CNum 100000000%Z; CNum (-3000000)%Z];
              [CNum 200000000%Z; CNum (-6000000)%Z]] |}.

Definition b_csv : DataFrame :=
  {| columns := ["Frequency(Hz)"; "Magnitude(dB)"; "Note"];
     rows := [[CNum 200000000%Z; CNum (-6500000)%Z; CStr " second "];
              [CNum 100000000%Z; CNum (-3500000)%Z; CNaN]] |}.

Definition sweep_csv : DataFrame :=
  {| columns := ["Frequency(Hz)"; "Magnitude(dB)"];
     rows := [[CNum 100000000%Z; CNum (-3250000)%Z];
              [CNum 200000000%Z; CNum (-6250000)%Z]] |}.

(** A table without the frequency column. *)
Definition timing_csv : DataFrame :=
  {| columns := ["Time(s)"; "Magnitude(dB)"];
     rows := [[CNum 1%Z; CNum (-3000000)%Z]] |}.

Definition start (f : files) : state := {| fs := f; log := [] |}.

(** The directory [sweep/], with the output of an earlier run in it. *)
Definition listing : files :=
  [("a.csv", Table a_csv); ("sweep.csv", Garbled);
   ("b.csv", Table b_csv); ("notes.txt", Garbled)].

(** An unreadable file enumerated before a good one, and after it. *)
Definition bad_first : files := [("a.csv", Garbled); ("b.csv", Table b_csv)].
Definition bad_last : files := [("b.csv", Table b_csv); ("a.csv", Garbled)].

Definition only_timing : files := [("t.csv", Table timing_csv)].

Definition no_csv : files := [("notes.txt", Garbled)].

Definition all_bad : files := [("a.csv", Garbled); ("c.csv", Garbled)].

(** A directory that holds nothing but the output of an earlier run. *)
Definition only_output : files := [("sweep.csv", Table sweep_csv)].

(** A table with a row without magnitude and a frequency seen only there. *)
Definition gaps_csv : DataFrame :=
  {| columns := ["Frequency(Hz)"; "Magnitude(dB)"];
     rows := [[CNum 100000000%Z; CNaN];
              [CNum 100000000%Z; CNum (-3000000)%Z];
              [CNum 300000000%Z; CNaN];
              [CNaN; CNum (-1000000)%Z]] |}.

Definition with_gaps : files := [("g.csv", Table gaps_csv)].

(** The path [sweep/] as lines 20-25 see it: an existing, readable
    directory. *)
Definition dir : Os.path :=
  {| Os.path_exists := true; Os.path_is_dir := true;
     Os.path_readable := true; Os.path_name := "sweep" |}.

(** A session without a display: the directory can be written, the window
    cannot be opened. *)
Definition no_display : Os.faults :=
  {| Os.unlink_raises := false; Os.to_csv_raises := false;
     Os.window_raises := true |}.

(** A directory the script may read but not change. *)
Definition read_only : Os.faults :=
  {| Os.unlink_raises := true; Os.to_csv_raises := true;
     Os.window_raises := false |}.

Definition gaps_out : DataFrame :=
  {| columns := ["Frequency(Hz)"; "Magnitude(dB)"];
     rows := [[CNum 100000000%Z; CNum (-3000000)%Z];
              [CNum 300000000%Z; CNaN]] |}.

End Sweep.

(* ================================================================== *)
(** ** Facts about [strip] *)

Module PyStrFacts.
Import PyStr.
Local Open Scope string_scope.

Lemma lstrip_split s :
  exists l, s = l ++ lstrip s /\ all_space l = true.
Proof.
  induction s as [|c s IH]; simpl.
  - exists EmptyString. split; reflexivity.
  - destruct (is_space c) eqn:E.
    + destruct IH as (l & Hs & Hl).
      exists (String c l). simpl. rewrite E, Hl. split; [congruence | reflexivity].
    + exists EmptyString. split; reflexivity.
Qed.

Lemma lstrip_first s : opt_space (first_char (lstrip s)) = false.
Proof.
  induction s as [|c s IH]; simpl; [reflexivity|].
  destruct (is_space c) eqn:E; [exact IH | simpl; exact E].
Qed.

Lemma rstrip_split s :
  exists r, s = rstrip s ++ r /\ all_space r = true.
Proof.
  induction s as [|c s IH]; simpl.
  - exists EmptyString. split; reflexivity.
  - destruct IH as (r & Hs & Hr).
    destruct (rstrip s) as [|d t] eqn:E.
    + destruct (is_space c) eqn:Ec.
      * exists (String c r). simpl in *. rewrite Ec, Hr.
        split; [congruence | reflexivity].
      * exists r. simpl in *. split; congruence.
    + exists r. simpl in *. split; congruence.
Qed.

Lemma rstrip_last s : opt_space (last_char (rstrip s)) = false.
Proof.
  induction s as [|c s IH]; simpl; [reflexivity|].
  destruct (rstrip s) as [|d t] eqn:E.
  - destruct (is_space c) eqn:Ec; simpl; [reflexivity | exact Ec].
  - exact IH.
Qed.

Lemma rstrip_first s :
  opt_space (first_char s) = false -> opt_space (first_char (rstrip s)) = false.
Proof.
  destruct s as [|c s]; simpl; [reflexivity|].
  intros Hc. destruct (rstrip s); [rewrite Hc|]; simpl; auto.
Qed.

Lemma append_assoc (a b c : string) : (a ++ b) ++ c = a ++ (b ++ c).
Proof. induction a; simpl; congruence. Qed.

Lemma strip_spec s : is_strip_of s (strip s).
Proof.
  unfold is_strip_of, trimmed, strip. split.
  - split; [apply rstrip_first, lstrip_first | apply rstrip_last].
  - destruct (lstrip_split s) as (l & Hs & Hl).
    destruct (rstrip_split (lstrip s)) as (r & Hr & Hsp).
    exists l, r. repeat split; try assumption.
    rewrite <- Hr. exact Hs.
Qed.

End PyStrFacts.

(* ================================================================== *)
(** ** Facts about keys and their order *)

Lemma string_leb_trans (s t u : string) :
  String.leb s t = true -> String.leb t u = true -> String.leb s u = true.
Proof.
  unfold String.leb. revert t u.
  induction s as [|a s IH]; intros [|b t] [|c u]; simpl; try easy.
  unfold Ascii.compare.
  destruct (N.compare_spec (N_of_ascii a) (N_of_ascii b)) as [Hab|Hab|Hab];
    destruct (N.compare_spec (N_of_ascii b) (N_of_ascii c)) as [Hbc|Hbc|Hbc];
    destruct (N.compare_spec (N_of_ascii a) (N_of_ascii c)) as [Hac|Hac|Hac];
    try easy; try lia.
  apply IH.
Qed.

Section KeyOrder.
Context {N : NumOps} {O : NumOrder N}.

Lemma key_leb_total (a b : cell) : key_leb a b = true \/ key_leb b a = true.
Proof.
  destruct a, b; simpl; auto.
  - apply num_leb_total.
  - apply String.leb_total.
Qed.

Lemma key_leb_trans (a b c : cell) :
  key_leb a b = true -> key_leb b c = true -> key_leb a c = true.
Proof.
  destruct a, b, c; simpl; try easy.
  - apply num_leb_trans.
  - apply string_leb_trans.
Qed.

Lemma key_leb_antisym (a b : cell) :
  key_leb a b = true -> key_leb b a = true -> a = b.
Proof.
  destruct a, b; simpl; try easy.
  - intros H1 H2. f_equal. now apply num_leb_antisym.
  - intros H1 H2. f_equal. now apply String.leb_antisym.
Qed.

End KeyOrder.

Section SortFacts.
Context {N : NumOps}.

Lemma insert_key_perm (k : cell) (l : list cell) :
  Permutation (insert_key k l) (k :: l).
Proof.
  induction l as [|x l IH]; simpl; [reflexivity|].
  destruct (key_leb k x); [reflexivity|].
  rewrite IH. apply perm_swap.
Qed.

Lemma sort_keys_perm (l : list cell) : Permutation (sort_keys l) l.
Proof.
  induction l as [|x l IH]; simpl; [reflexivity|].
  rewrite insert_key_perm. now constructor.
Qed.

Lemma sort_keys_In (l : list cell) (k : cell) : In k (sort_keys l) <-> In k l.
Proof.
  split; apply Permutation_in;
    [apply sort_keys_perm | symmetry; apply sort_keys_perm].
Qed.

Lemma sort_keys_NoDup (l : list cell) : NoDup l -> NoDup (sort_keys l).
Proof.
  intros H. eapply Permutation_NoDup; [symmetry; apply sort_keys_perm | exact H].
Qed.


Context {O : NumOrder N}.

Lemma insert_key_sorted (k : cell) (l : list cell) :
  Sorted (fun a b => key_leb a b = true) l ->
  Sorted (fun a b => key_leb a b = true) (insert_key k l).
Proof.
  induction l as [|x l IH]; simpl; intros Hs.
  - repeat constructor.
  - destruct (key_leb k x) eqn:E.
    + constructor; [exact Hs | constructor; exact E].
    + inversion Hs as [|? ? Hs' Hhd]; subst.
      constructor; [now apply IH|].
      destruct (key_leb_total k x) as [Hk|Hk]; [congruence|].
      destruct l as [|y l]; simpl.
      * constructor; exact Hk.
      * destruct (key_leb k y); constructor; [exact Hk|].
        now inversion Hhd.
Qed.

Lemma sort_keys_sorted (l : list cell) :
  Sorted (fun a b => key_leb a b = true) (sort_keys l).
Proof.
  induction l as [|x l IH]; simpl; [constructor | now apply insert_key_sorted].
Qed.

Lemma sort_keys_strongly_sorted (l : list cell) :
  StronglySorted (fun a b => key_leb a b = true) (sort_keys l).
Proof.
  apply Sorted_StronglySorted; [|apply sort_keys_sorted].
  intros a b c. apply key_leb_trans.
Qed.

Lemma strict_of_NoDup (l : list cell) :
  NoDup l ->
  StronglySorted (fun a b => key_leb a b = true) l ->
  StronglySorted key_lt l.
Proof.
  induction 1 as [|x l Hx Hnd IH]; intros Hs; [constructor|].
  inversion Hs as [|? ? Hs' Hall]; subst.
  constructor; [now apply IH|].
  rewrite Forall_forall in *. intros y Hy. split; [now apply Hall|].
  intros ->. contradiction.
Qed.

(** Two strictly ascending lists with the same elements are equal. *)
Lemma strictly_sorted_unique (l1 l2 : list cell) :
  StronglySorted key_lt l1 -> StronglySorted key_lt l2 ->
  (forall k, In k l1 <-> In k l2) -> l1 = l2.
Proof.
  revert l2. induction l1 as [|x l1 IH]; intros l2 H1 H2 Hin.
  - destruct l2 as [|y l2]; [reflexivity|].
    exfalso. apply (proj2 (Hin y)). now left.
  - destruct l2 as [|y l2].
    + exfalso. apply (proj1 (Hin x)). now left.
    + inversion H1 as [|? ? H1' A1]; subst.
      inversion H2 as [|? ? H2' A2]; subst.
      rewrite Forall_forall in A1, A2.
      assert (Hxy : x = y).
      { destruct (proj1 (Hin x) (or_introl eq_refl)) as [E|Hx]; [now symmetry|].
        destruct (proj2 (Hin y) (or_introl eq_refl)) as [E|Hy]; [exact E|].
        destruct (A1 y Hy) as [L1 _]. destruct (A2 x Hx) as [L2 _].
        now apply key_leb_antisym. }
      subst y. f_equal. apply IH; trivial.
      intros k. split; intros Hk.
      * destruct (proj1 (Hin k) (or_intror Hk)) as [E|Hk']; [|exact Hk'].
        subst k. destruct (A1 x Hk) as [_ Hne]. congruence.
      * destruct (proj2 (Hin k) (or_intror Hk)) as [E|Hk']; [|exact Hk'].
        subst k. destruct (A2 x Hk) as [_ Hne]. congruence.
Qed.

End SortFacts.

(* ================================================================== *)
(** ** Facts about frames *)

Lemma traverse_ok {A B} (f : A -> result B) (l : list A) (bs : list B) :
  traverse f l = Ok bs -> Forall2 (fun a b => f a = Ok b) l bs.
Proof.
  revert bs. induction l as [|a l IH]; simpl; intros bs H.
  - injection H as <-. constructor.
  - destruct (f a) as [b|e] eqn:Ea; simpl in H; [|discriminate].
    destruct (traverse f l) as [bs'|e] eqn:El; simpl in H; [|discriminate].
    injection H as <-. constructor; [exact Ea | now apply IH].
Qed.

Lemma traverse_total {A B} (f : A -> result B) (l : list A) :
  (forall a, In a l -> exists b, f a = Ok b) -> exists bs, traverse f l = Ok bs.
Proof.
  induction l as [|a l IH]; simpl; intros H; [now eexists|].
  destruct (H a (or_introl eq_refl)) as (b & ->).
  destruct IH as (bs & ->); [intros; apply H; now right|].
  simpl. now eexists.
Qed.

Lemma existsb_eqb_In (x : string) (l : list string) :
  existsb (String.eqb x) l = true <-> In x l.
Proof.
  rewrite existsb_exists. split.
  - intros (y & Hy & E). apply String.eqb_eq in E. now subst.
  - intros H. exists x. split; [exact H | apply String.eqb_refl].
Qed.

Section FrameFacts.
Context {N : NumOps}.

Lemma cell_eqb_eq (a b : cell) : cell_eqb a b = true <-> a = b.
Proof.
  unfold cell_eqb. destruct (cell_eq_dec a b); split; congruence.
Qed.

Lemma cell_eqb_refl (a : cell) : cell_eqb a a = true.
Proof. now apply cell_eqb_eq. Qed.

Lemma has_column_In (df : DataFrame) (name : string) :
  has_column df name = true <-> In name (columns df).
Proof. apply existsb_eqb_In. Qed.


Lemma group_keys_measurements (df : DataFrame) :
  group_keys df =
  sort_keys (nodup cell_eq_dec (filter notna (map fst (measurements df)))).
Proof.
  unfold group_keys, measurements. now rewrite map_map.
Qed.

Lemma group_measurements (df : DataFrame) (k : cell) :
  group df k =
  map snd (filter (fun p => cell_eqb (fst p) k) (measurements df)).
Proof.
  unfold group, measurements.
  induction (rows df) as [|r l IH]; simpl; [reflexivity|].
  destruct (cell_eqb (frequency_of df r) k); simpl; now rewrite IH.
Qed.

Lemma group_keys_NoDup (df : DataFrame) : NoDup (group_keys df).
Proof. apply sort_keys_NoDup, NoDup_nodup. Qed.

Lemma group_keys_In (df : DataFrame) (k : cell) :
  In k (group_keys df) <-> k <> CNaN /\ In k (map fst (measurements df)).
Proof.
  rewrite group_keys_measurements, sort_keys_In, nodup_In, filter_In.
  split; intros [H1 H2]; split; trivial.
  - intros ->. discriminate.
  - now destruct k.
Qed.

(** *** Reading a cell after realignment *)

Lemma cell_at_notin (cols : list string) (row : list cell) (name : string) :
  ~ In name cols -> cell_at cols row name = CNaN.
Proof.
  revert row. induction cols as [|c cols IH]; intros row H; simpl; [reflexivity|].
  destruct row as [|v row]; [reflexivity|].
  destruct (String.eqb c name) eqn:E.
  - apply String.eqb_eq in E. subst. exfalso. apply H. now left.
  - apply IH. intros Hin. apply H. now right.
Qed.

Lemma cell_at_reindex (cols src : list string) (row : list cell) (name : string) :
  (In name src -> In name cols) ->
  cell_at cols (map (cell_at src row) cols) name = cell_at src row name.
Proof.
  induction cols as [|c cols IH]; simpl; intros H.
  - symmetry. apply cell_at_notin. intros Hin. exact (H Hin).
  - destruct (String.eqb c name) eqn:E.
    + apply String.eqb_eq in E. now subst.
    + destruct (in_dec string_dec name src) as [Hin|Hout].
      * apply IH. intros _. destruct (H Hin) as [->|]; [|assumption].
        rewrite String.eqb_refl in E. discriminate.
      * rewrite (cell_at_notin src row name Hout).
        clear IH H. induction cols as [|d cols IH]; simpl; [reflexivity|].
        destruct (String.eqb d name) eqn:Ed; [|exact IH].
        apply String.eqb_eq in Ed. subst d. now apply cell_at_notin.
Qed.

Lemma union_columns_In (acc cols : list string) (x : string) :
  In x (union_columns acc cols) <-> In x acc \/ In x cols.
Proof.
  revert acc. induction cols as [|c cols IH]; intros acc; simpl; [tauto|].
  rewrite IH. destruct (existsb (String.eqb c) acc) eqn:E.
  - apply existsb_eqb_In in E. split; [tauto|].
    intros [H|[->|H]]; tauto.
  - rewrite in_app_iff. simpl. tauto.
Qed.

Lemma fold_union_In (dfs : list DataFrame) (acc : list string) (x : string) :
  In x (fold_left (fun acc df => union_columns acc (columns df)) dfs acc) <->
  In x acc \/ exists df, In df dfs /\ In x (columns df).
Proof.
  revert acc. induction dfs as [|df dfs IH]; intros acc; simpl.
  - split; [tauto | intros [H|(df & [] & _)]; exact H].
  - rewrite IH, union_columns_In. split.
    + intros [[H|H]|(df' & H1 & H2)]; eauto.
    + intros [H|(df' & [->|H1] & H2)]; eauto.
Qed.

Lemma combined_columns_In (dfs : list DataFrame) (x : string) :
  In x (combined_columns dfs) <-> exists df, In df dfs /\ In x (columns df).
Proof.
  unfold combined_columns. rewrite fold_union_In. simpl. tauto.
Qed.

(** *** [concat] *)

Lemma concat_ok (dfs : list DataFrame) (c : DataFrame) :
  concat dfs = Ok c ->
  dfs <> [] /\
  c = {| columns := combined_columns dfs;
         rows := flat_map (reindex (combined_columns dfs)) dfs |}.
Proof.
  unfold concat. destruct dfs as [|df dfs]; [discriminate|].
  destruct (forallb _ _); [|discriminate].
  intros H. injection H as <-. split; [discriminate | reflexivity].
Qed.

Lemma concat_has_column (dfs : list DataFrame) (c : DataFrame) (name : string) :
  concat dfs = Ok c ->
  (has_column c name = true <-> exists df, In df dfs /\ has_column df name = true).
Proof.
  intros H. apply concat_ok in H as [_ ->].
  rewrite has_column_In. simpl. rewrite combined_columns_In.
  split; intros (df & H1 & H2); exists df; split; trivial; now apply has_column_In.
Qed.

(** The measurement rows of the combined table are those of the frames, in
    list order. *)
Lemma concat_measurements (dfs : list DataFrame) (c : DataFrame) :
  concat dfs = Ok c -> measurements c = flat_map measurements dfs.
Proof.
  intros H. apply concat_ok in H as [_ ->].
  unfold measurements at 1. simpl.
  assert (G : forall l, incl l dfs ->
    map (fun row =>
           (cell_at (combined_columns dfs) row FREQ,
            cell_at (combined_columns dfs) row MAG))
        (flat_map (reindex (combined_columns dfs)) l)
    = flat_map measurements l).
  { induction l as [|df l IH]; intros Hl; simpl; [reflexivity|].
    rewrite map_app, IH by (intros x Hx; apply Hl; now right).
    f_equal. unfold reindex, measurements, frequency_of, magnitude_of.
    rewrite map_map. apply map_ext. intros row.
    assert (Hsub : forall name, In name (columns df) ->
                                In name (combined_columns dfs)).
    { intros name Hn. apply combined_columns_In. exists df.
      split; [apply Hl; now left | exact Hn]. }
    now rewrite !cell_at_reindex by (apply Hsub). }
  apply G, incl_refl.
Qed.

(** *** [groupby_agg] *)

Lemma groupby_agg_ok (df out : DataFrame) :
  groupby_agg df = Ok out ->
  has_column df FREQ = true /\ has_column df MAG = true /\
  columns out = [FREQ; MAG] /\
  Forall2 (fun k row => exists m, rounded_mean (group df k) = Ok m /\ row = [k; m])
          (group_keys df) (rows out).
Proof.
  unfold groupby_agg.
  destruct (has_column df FREQ); simpl; [|discriminate].
  destruct (has_column df MAG); simpl; [|discriminate].
  destruct (traverse _ _) as [rs|e] eqn:E; simpl; [|discriminate].
  intros H. injection H as <-. simpl. repeat split.
  apply traverse_ok in E.
  eapply Forall2_impl; [|exact E].
  intros k row Hk. simpl in Hk.
  destruct (rounded_mean (group df k)) as [m|e]; simpl in Hk; [|discriminate].
  injection Hk as <-. now exists m.
Qed.

Lemma groupby_agg_missing (df : DataFrame) :
  has_column df FREQ = false \/ has_column df MAG = false ->
  exists column, groupby_agg df = Raise (KeyError column).
Proof.
  unfold groupby_agg. intros [H|H].
  - rewrite H. simpl. now eexists.
  - destruct (has_column df FREQ); simpl; [rewrite H; simpl|]; now eexists.
Qed.

Lemma frequency_of_output (out : DataFrame) (k m : cell) :
  columns out = [FREQ; MAG] -> frequency_of out [k; m] = k.
Proof. unfold frequency_of. intros ->. reflexivity. Qed.

Lemma magnitude_of_output (out : DataFrame) (k m : cell) :
  columns out = [FREQ; MAG] -> magnitude_of out [k; m] = m.
Proof. unfold magnitude_of. intros ->. reflexivity. Qed.

(** The frequency column of the result is the list of group keys. *)
Lemma groupby_agg_keys (df out : DataFrame) :
  groupby_agg df = Ok out ->
  map (frequency_of out) (rows out) = group_keys df.
Proof.
  intros H. apply groupby_agg_ok in H as (_ & _ & Hc & Hf).
  induction Hf as [|k row ks rs (m & _ & ->) _ IH]; simpl; [reflexivity|].
  now rewrite IH, frequency_of_output.
Qed.

(** The result has exactly one row for a key, holding the rounded mean of
    the key's group. *)
Lemma groupby_agg_row (df out : DataFrame) (k : cell) :
  groupby_agg df = Ok out -> In k (group_keys df) ->
  exists m, rounded_mean (group df k) = Ok m /\
            filter (fun row => cell_eqb (frequency_of out row) k) (rows out)
            = [[k; m]].
Proof.
  intros H Hk. apply groupby_agg_ok in H as (_ & _ & Hc & Hf).
  pose proof (group_keys_NoDup df) as Hnd.
  revert Hk Hnd. generalize (group_keys df) (rows out) Hf. clear Hf.
  intros ks rs Hf.
  induction Hf as [|k' row ks rs (m & Hm & ->) Hf IH]; intros Hk Hnd;
    [contradiction|].
  inversion Hnd as [|? ? Hnot Hnd']; subst. simpl.
  rewrite frequency_of_output by exact Hc.
  destruct Hk as [->|Hk].
  - rewrite cell_eqb_refl. exists m. split; [exact Hm|]. f_equal.
    clear IH Hnd. induction Hf as [|k'' row ks rs (m' & _ & ->) Hf IH];
      [reflexivity|].
    simpl. rewrite frequency_of_output by exact Hc.
    destruct (cell_eqb k'' k) eqn:E.
    + apply cell_eqb_eq in E. subst. exfalso. apply Hnot. now left.
    + apply IH.
      * intros Hin. apply Hnot. now right.
      * now inversion Hnd'.
  - destruct (cell_eqb k' k) eqn:E.
    + apply cell_eqb_eq in E. subst. contradiction.
    + now apply IH.
Qed.

Lemma numbers_map_CNum (ms : list num) : numbers (map CNum ms) = ms.
Proof. induction ms; simpl; congruence. Qed.

Lemma rounded_mean_numeric (ms : list num) :
  ms <> [] -> rounded_mean (map CNum ms) = Ok (CNum (round6 (mean ms))).
Proof.
  assert (E : existsb is_str (map CNum ms) = false).
  { induction ms; simpl; auto. }
  intros H. unfold rounded_mean.
  rewrite E, numbers_map_CNum. destruct ms; [contradiction | reflexivity].
Qed.

End FrameFacts.

(* ================================================================== *)
(** ** Facts about the file system *)

Section FileFacts.
Context {N : NumOps}.

Lemma endswith_append (s suffix : string) :
  PyStr.endswith (s ++ suffix)%string suffix = true.
Proof.
  induction s as [|c s IH].
  - destruct suffix; [reflexivity|].
    cbn [PyStr.endswith append]. now rewrite String.eqb_refl.
  - cbn [PyStr.endswith append]. rewrite IH. apply orb_true_r.
Qed.

Lemma final_csv_is_csv (d : string) : PyStr.endswith (final_csv d) ".csv" = true.
Proof. apply endswith_append. Qed.

Lemma exists_file_In (f : files) (name : string) :
  exists_file f name = true <-> In name (map fst f).
Proof.
  unfold exists_file. rewrite existsb_exists, in_map_iff. split.
  - intros (e & He & E). apply String.eqb_eq in E. now exists e.
  - intros (e & E & He). exists e. split; [exact He|]. now apply String.eqb_eq.
Qed.

Lemma lookup_None (f : files) (name : string) :
  lookup f name = None <-> exists_file f name = false.
Proof.
  induction f as [|[n c] f IH]; simpl; [tauto|].
  destruct (String.eqb n name); simpl; [split; discriminate | exact IH].
Qed.

Lemma unlink_absent (f : files) (name : string) :
  exists_file f name = false -> unlink f name = f.
Proof.
  induction f as [|[n c] f IH]; simpl; [reflexivity|].
  destruct (String.eqb n name); simpl; [discriminate|].
  intros H. now rewrite IH.
Qed.

Lemma exists_file_unlink (f : files) (name : string) :
  exists_file (unlink f name) name = false.
Proof.
  induction f as [|[n c] f IH]; simpl; [reflexivity|].
  destruct (String.eqb n name) eqn:E; simpl; [exact IH|].
  now rewrite E.
Qed.

Lemma unlink_idem (f : files) (name : string) :
  unlink (unlink f name) name = unlink f name.
Proof. apply unlink_absent, exists_file_unlink. Qed.

Lemma lookup_unlink_other (f : files) (name file : string) :
  file <> name -> lookup (unlink f name) file = lookup f file.
Proof.
  intros Hne. induction f as [|[n c] f IH]; simpl; [reflexivity|].
  destruct (String.eqb n name) eqn:E; simpl.
  - apply String.eqb_eq in E. subst n.
    destruct (String.eqb name file) eqn:E'; [|exact IH].
    apply String.eqb_eq in E'. congruence.
  - now rewrite IH.
Qed.

Lemma write_absent (f : files) (name : string) (c : content) :
  exists_file f name = false -> write f name c = f ++ [(name, c)].
Proof.
  induction f as [|[n c'] f IH]; simpl; [reflexivity|].
  destruct (String.eqb n name); simpl; [discriminate|].
  intros H. now rewrite IH.
Qed.

Lemma lookup_write (f : files) (name : string) (c : content) :
  lookup (write f name c) name = Some c.
Proof.
  induction f as [|[n c'] f IH]; simpl.
  - now rewrite String.eqb_refl.
  - destruct (String.eqb n name) eqn:E; simpl; now rewrite E.
Qed.

Lemma exists_file_write (f : files) (name : string) (c : content) :
  exists_file (write f name c) name = true.
Proof.
  destruct (exists_file (write f name c) name) eqn:E; [reflexivity|].
  apply lookup_None in E. now rewrite lookup_write in E.
Qed.

Lemma unlink_write (f : files) (name : string) (c : content) :
  exists_file f name = false -> unlink (write f name c) name = f.
Proof.
  intros H. rewrite write_absent by exact H.
  unfold unlink. rewrite filter_app. simpl. rewrite String.eqb_refl. simpl.
  rewrite app_nil_r. now apply unlink_absent.
Qed.

Lemma glob_csv_unlink (f : files) (name : string) :
  glob_csv (unlink f name) =
  filter (fun n => negb (String.eqb n name)) (glob_csv f).
Proof.
  unfold glob_csv, unlink.
  induction f as [|[n c] f IH]; [reflexivity|].
  cbn [map filter fst].
  destruct (String.eqb n name) eqn:E; cbn [negb map filter fst];
    destruct (PyStr.endswith n ".csv") eqn:Ec; cbn [filter];
    rewrite ?E, ?Ec; cbn [negb].
  all: now rewrite IH.
Qed.

(** Line 55 after line 37: the candidates do not depend on a stale
    output being there. *)
Lemma candidates_unlink (d : string) (f : files) :
  candidates d (glob_csv (unlink f (final_csv d))) = candidates d (glob_csv f).
Proof.
  rewrite glob_csv_unlink. unfold candidates.
  induction (glob_csv f) as [|n l IH]; simpl; [reflexivity|].
  destruct (String.eqb n (final_csv d)) eqn:E; simpl; rewrite ?E; simpl;
    now rewrite IH.
Qed.

Lemma candidates_not_final (d : string) (csv_files : list string) :
  ~ In (final_csv d) (candidates d csv_files).
Proof.
  unfold candidates. rewrite filter_In. intros [_ H].
  now rewrite String.eqb_refl in H.
Qed.

End FileFacts.

(* ================================================================== *)
(** ** Facts about the script *)

Ltac unfold_monad :=
  unfold bind, ret, raise, try, lift, print, get_fs, put_fs; simpl.

Section ScriptFacts.
Context {N : NumOps}.

Lemma with_log_nil (st : state) : with_log st [] = st.
Proof. destruct st. unfold with_log. simpl. now rewrite app_nil_r. Qed.

Lemma with_log_app (st : state) (a b : list event) :
  with_log (with_log st a) b = with_log st (a ++ b).
Proof. unfold with_log. simpl. now rewrite app_assoc. Qed.

Lemma read_csv_ok (file : string) (df : DataFrame) (st : state) :
  lookup (fs st) file = Some (Table df) -> read_csv file st = (Ok df, st).
Proof. intros H. unfold read_csv. unfold_monad. now rewrite H. Qed.

Lemma read_csv_fail (file : string) (st : state) :
  parses (fs st) file = false -> read_csv file st = (Raise ParseError, st).
Proof.
  unfold parses, read_csv. unfold_monad.
  destruct (lookup (fs st) file) as [[|df]|]; easy.
Qed.

Lemma read_loop_scan (csv_files : list string) (dataframes : list DataFrame)
      (st : state) :
  read_loop csv_files dataframes st =
  (Ok (fst (scan (fs st) csv_files dataframes)),
   with_log st (snd (scan (fs st) csv_files dataframes))).
Proof.
  revert dataframes st.
  induction csv_files as [|file rest IH]; intros dataframes st; simpl.
  - unfold ret. now rewrite with_log_nil.
  - unfold bind at 1. unfold try.
    destruct (lookup (fs st) file) as [[|df]|] eqn:E.
    + rewrite read_csv_fail by (unfold parses; now rewrite E).
      destruct dataframes as [|df0 dfs]; unfold_monad;
        [unfold with_log; simpl; now rewrite <- app_assoc|].
      rewrite IH. simpl. unfold with_log. simpl. now rewrite <- app_assoc.
    + rewrite (read_csv_ok file df st E). apply IH.
    + rewrite read_csv_fail by (unfold parses; now rewrite E).
      destruct dataframes as [|df0 dfs]; unfold_monad;
        [unfold with_log; simpl; now rewrite <- app_assoc|].
      rewrite IH. simpl. unfold with_log. simpl. now rewrite <- app_assoc.
Qed.

(** Once a file has been read, the loop runs to its end and keeps every
    file that parses. *)
Lemma scan_started (f : files) (csv_files : list string)
      (dataframes : list DataFrame) :
  dataframes <> [] ->
  fst (scan f csv_files dataframes) =
  Completed (dataframes ++ map normalize (tables f csv_files)).
Proof.
  revert dataframes.
  induction csv_files as [|file rest IH]; intros dataframes Hne; simpl.
  - now rewrite app_nil_r.
  - destruct (lookup f file) as [[|df]|].
    + destruct dataframes; [contradiction|]. simpl. now apply IH.
    + rewrite IH by (now destruct dataframes). simpl.
      now rewrite <- app_assoc.
    + destruct dataframes; [contradiction|]. simpl. now apply IH.
Qed.

Lemma scan_first (f : files) (csv_files : list string) :
  fst (scan f csv_files []) =
  match csv_files with
  | [] => Completed []
  | file :: _ =>
      if parses f file then Completed (map normalize (tables f csv_files))
      else Returned
  end.
Proof.
  destruct csv_files as [|file rest]; simpl; [reflexivity|].
  unfold parses. destruct (lookup f file) as [[|df]|]; try reflexivity.
  now rewrite scan_started.
Qed.

Lemma tables_ext (f g : files) (names : list string) :
  (forall file, In file names -> lookup f file = lookup g file) ->
  tables f names = tables g names.
Proof.
  intros H. unfold tables.
  induction names as [|file names IH]; simpl; [reflexivity|].
  rewrite H by now left. f_equal. apply IH. intros; apply H; now right.
Qed.

Lemma scan_ext (f g : files) (names : list string) (dfs : list DataFrame) :
  (forall file, In file names -> lookup f file = lookup g file) ->
  scan f names dfs = scan g names dfs.
Proof.
  revert dfs. induction names as [|file names IH]; intros dfs H; simpl;
    [reflexivity|].
  rewrite H by now left.
  assert (H' : forall file, In file names -> lookup f file = lookup g file)
    by (intros; apply H; now right).
  destruct (lookup g file) as [[|df]|]; try (now apply IH);
    destruct dfs; try reflexivity; now rewrite IH.
Qed.

Lemma lookup_unlink_input (d : string) (f : files) (file : string) :
  In file (inputs d f) ->
  lookup (unlink f (final_csv d)) file = lookup f file.
Proof.
  intros H. apply lookup_unlink_other. intros ->.
  exact (candidates_not_final _ _ H).
Qed.

Lemma inputs_unlink (d : string) (f : files) :
  inputs d (unlink f (final_csv d)) = inputs d f.
Proof. apply candidates_unlink. Qed.

Lemma tables_unlink (d : string) (f : files) :
  tables (unlink f (final_csv d)) (inputs d f) = tables f (inputs d f).
Proof. apply tables_ext. intros. now apply lookup_unlink_input. Qed.

Lemma input_rows_unlink (d : string) (f : files) :
  input_rows d (unlink f (final_csv d)) = input_rows d f.
Proof. unfold input_rows. now rewrite inputs_unlink, tables_unlink. Qed.

Lemma scan_unlink (d : string) (f : files) (dfs : list DataFrame) :
  scan (unlink f (final_csv d)) (inputs d f) dfs = scan f (inputs d f) dfs.
Proof. apply scan_ext. intros. now apply lookup_unlink_input. Qed.

End ScriptFacts.

Section RunFacts.
Context {N : NumOps}.


Lemma remove_final_csv_eq (d : string) (st : state) :
  remove_final_csv d st =
  (Ok tt,
   {| fs := unlink (fs st) (final_csv d);
      log := log st ++ [if exists_file (fs st) (final_csv d)
                        then Deleted (final_csv d)
                        else NotPresent (final_csv d)] |}).
Proof.
  unfold remove_final_csv. unfold_monad.
  destruct (exists_file (fs st) (final_csv d)) eqn:E; simpl; [reflexivity|].
  now rewrite unlink_absent.
Qed.

Lemma process_csv_files_eq (d : string) (st : state) :
  process_csv_files d st =
  match glob_csv (fs st) with
  | [] => (Raise (ValueError NoCsvFiles), st)
  | file :: files' =>
      let g := file :: files' in
      let s := scan (fs st) (candidates d g) [] in
      let st1 := with_log st (FoundFiles g :: snd s) in
      match fst s with
      | Returned => (Ok tt, st1)
      | Completed [] => (Ok tt, with_log st1 [NoUsableData])
      | Completed (df :: dfs) =>
          match aggregate (df :: dfs) with
          | Ok out =>
              (Ok tt,
               {| fs := write (fs st) (final_csv d) (Table out);
                  log := log st1 ++ [Saved (final_csv d)] |})
          | Raise e => (Raise e, st1)
          end
      end
  end.
Proof.
  unfold process_csv_files. unfold bind at 1. unfold get_fs at 1.
  destruct (glob_csv (fs st)) as [|file files'] eqn:G; [reflexivity|].
  cbv zeta. unfold bind at 1. unfold print at 1.
  unfold bind at 1. rewrite read_loop_scan. cbn [fs log].
  fold (with_log st [FoundFiles (file :: files')]).
  rewrite with_log_app. cbn [app].
  destruct (fst (scan (fs st) (candidates d (file :: files')) []))
    as [[|df dfs]|]; try reflexivity.
  unfold aggregate. unfold bind at 1. unfold lift at 1.
  destruct (concat (df :: dfs)) as [comb|e]; cbn [rbind]; [|reflexivity].
  unfold bind at 1. unfold lift at 1.
  destruct (groupby_agg comb) as [out|e]; [|reflexivity].
  unfold to_csv, bind, get_fs, put_fs, print. reflexivity.
Qed.

Lemma show_gui_plot (file : string) (df : DataFrame) (st : state) :
  lookup (fs st) file = Some (Table df) ->
  has_column df FREQ = true -> has_column df MAG = true ->
  show_gui file st = (Ok tt, with_log st [Plot df]).
Proof.
  intros H HF HM. unfold show_gui. unfold bind, try.
  rewrite (read_csv_ok file df st H), HF, HM. reflexivity.
Qed.

Lemma glob_csv_cleaned (d : string) (f : files) :
  glob_csv (unlink f (final_csv d)) = inputs d f.
Proof. apply glob_csv_unlink. Qed.

Lemma candidates_inputs (d : string) (f : files) :
  candidates d (inputs d f) = inputs d f.
Proof.
  unfold inputs, candidates.
  induction (glob_csv f) as [|n l IH]; simpl; [reflexivity|].
  destruct (String.eqb n (final_csv d)) eqn:E; simpl; rewrite ?E; simpl;
    now rewrite IH.
Qed.


(** A run on a readable directory, case by case. *)
Lemma main_Dir_eq (d : string) (st : state) :
  main (Dir d) st =
  let f := fs st in
  let final := final_csv d in
  let f0 := unlink f final in
  let s := scan f (inputs d f) [] in
  let seen := removal_message d f :: FoundFiles (inputs d f) :: snd s in
  match inputs d f with
  | [] =>
      (1%Z, {| fs := f0;
               log := log st ++ [removal_message d f;
                                 ErrorMessage (ValueError NoCsvFiles)] |})
  | file :: _ =>
      if parses f file then
        match aggregate (map normalize (tables f (inputs d f))) with
        | Ok out =>
            (0%Z, {| fs := f0 ++ [(final, Table out)];
                     log := log st ++ seen ++ [Saved final; Plot out] |})
        | Raise e =>
            (1%Z, {| fs := f0; log := log st ++ seen ++ [failure_message e] |})
        end
      else
        (0%Z, {| fs := f0; log := log st ++ seen ++ [NotGenerated] |})
  end.
Proof.
  cbv zeta. unfold main, main_body.
  unfold bind at 1. unfold get_directory, ret at 1.
  unfold bind at 1. rewrite remove_final_csv_eq. fold (removal_message d (fs st)).
  unfold bind at 1. rewrite process_csv_files_eq. cbn [fs log].
  rewrite glob_csv_cleaned.
  destruct (inputs d (fs st)) as [|file rest] eqn:I;
    [cbn [fs log is_ValueError]; now rewrite <- app_assoc|].
  cbv zeta. rewrite <- I, candidates_inputs, scan_unlink, scan_first, I.
  unfold with_log. cbn [fs log].
  destruct (parses (fs st) file) eqn:P.
  - rewrite <- I.
    assert (Hne : exists df dfs,
               map normalize (tables (fs st) (inputs d (fs st))) = df :: dfs).
    { rewrite I. unfold parses in P. unfold tables. simpl.
      destruct (lookup (fs st) file) as [[|df]|]; try discriminate.
      simpl. now eexists; eexists. }
    destruct Hne as (df & dfs & ->).
    destruct (aggregate (df :: dfs)) as [out|e] eqn:A.
    + unfold bind at 1. unfold get_fs at 1. cbn [fs log].
      rewrite write_absent by apply exists_file_unlink.
      rewrite <- (write_absent _ _ (Table out)) by apply exists_file_unlink.
      rewrite exists_file_write.
      unfold aggregate in A.
      destruct (concat (df :: dfs)) as [comb|] eqn:C; simpl in A; [|discriminate].
      apply groupby_agg_ok in A as (_ & _ & Hc & _).
      erewrite show_gui_plot;
        [| cbn [fs]; apply lookup_write
         | unfold has_column; rewrite Hc; reflexivity
         | unfold has_column; rewrite Hc; reflexivity].
      unfold with_log. cbn [fs log].
      rewrite write_absent by apply exists_file_unlink.
      f_equal. f_equal. repeat (rewrite <- app_assoc; simpl). reflexivity.
    + cbn [fs log]. unfold failure_message. f_equal. f_equal.
      repeat (rewrite <- app_assoc; simpl). reflexivity.
  - unfold bind at 1. unfold get_fs at 1. cbn [fs log].
    rewrite exists_file_unlink. unfold print. cbn [fs log].
    f_equal. f_equal. repeat (rewrite <- app_assoc; simpl). reflexivity.
Qed.

End RunFacts.

(* ================================================================== *)
(** ** What a run leaves behind *)

Section Outcome.
Context {N : NumOps}.

Lemma parses_unlink (d : string) (f : files) (file : string) :
  In file (inputs d f) ->
  parses (unlink f (final_csv d)) file = parses f file.
Proof. intros H. unfold parses. now rewrite lookup_unlink_input. Qed.

Lemma lookup_cleaned (d : string) (f : files) :
  lookup (unlink f (final_csv d)) (final_csv d) = None.
Proof. apply lookup_None, exists_file_unlink. Qed.

Lemma lookup_appended (d : string) (f : files) (c : content) :
  lookup (unlink f (final_csv d) ++ [(final_csv d, c)]) (final_csv d) = Some c.
Proof.
  rewrite <- (write_absent _ _ c) by apply exists_file_unlink.
  apply lookup_write.
Qed.

(** The exit status and the final listing depend on the directory only
    through the listing without the aggregate file. *)
Lemma main_cleaned (d : string) (st1 st2 : state) :
  unlink (fs st1) (final_csv d) = unlink (fs st2) (final_csv d) ->
  fst (main (Dir d) st1) = fst (main (Dir d) st2) /\
  fs (snd (main (Dir d) st1)) = fs (snd (main (Dir d) st2)).
Proof.
  intros H. rewrite !main_Dir_eq. cbv zeta.
  assert (HI : inputs d (fs st1) = inputs d (fs st2)).
  { now rewrite <- (inputs_unlink d (fs st1)), <- (inputs_unlink d (fs st2)), H. }
  assert (HT : tables (fs st1) (inputs d (fs st1)) =
               tables (fs st2) (inputs d (fs st2))).
  { rewrite <- (tables_unlink d (fs st1)), <- (tables_unlink d (fs st2)).
    now rewrite H, HI. }
  rewrite HT, <- HI, H.
  destruct (inputs d (fs st1)) as [|file rest] eqn:I; [now split|].
  assert (HP : parses (fs st1) file = parses (fs st2) file).
  { rewrite <- (parses_unlink d (fs st1)), <- (parses_unlink d (fs st2)).
    - now rewrite H.
    - first [rewrite I; now left | rewrite <- HI; now left].
    - first [rewrite I; now left | rewrite <- HI; now left]. }
  rewrite <- HP. destruct (parses (fs st1) file); [|now split].
  destruct (aggregate _); now split.
Qed.

(** The final listing is the cleaned listing, with the aggregate file
    appended when one was written. *)
Lemma main_listing (d : string) (st : state) :
  fs (snd (main (Dir d) st)) = unlink (fs st) (final_csv d) \/
  exists out,
    fs (snd (main (Dir d) st)) =
    unlink (fs st) (final_csv d) ++ [(final_csv d, Table out)].
Proof.
  rewrite main_Dir_eq. cbv zeta.
  destruct (inputs d (fs st)) as [|file rest]; [now left|].
  destruct (parses (fs st) file); [|now left].
  destruct (aggregate _) as [out|e]; [right; now exists out | now left].
Qed.

(** When the aggregate file is there after a run, the run wrote it: the
    loop ran to its end and the frames it kept were combined and grouped. *)
Lemma main_written (d : string) (st : state) (c : content) :
  lookup (fs (snd (main (Dir d) st))) (final_csv d) = Some c ->
  exists comb out,
    c = Table out /\
    concat (map normalize (tables (fs st) (inputs d (fs st)))) = Ok comb /\
    groupby_agg comb = Ok out /\
    fst (main (Dir d) st) = 0%Z /\
    exists file rest,
      inputs d (fs st) = file :: rest /\ parses (fs st) file = true.
Proof.
  rewrite main_Dir_eq. cbv zeta.
  destruct (inputs d (fs st)) as [|file rest] eqn:I; cbn [fst snd fs].
  - now rewrite lookup_cleaned.
  - destruct (parses (fs st) file) eqn:P; cbn [fst snd fs];
      [|now rewrite lookup_cleaned].
    destruct (aggregate _) as [out|e] eqn:A; cbn [fst snd fs];
      [|now rewrite lookup_cleaned].
    rewrite lookup_appended. intros H. injection H as <-.
    unfold aggregate in A.
    destruct (concat _) as [comb|] eqn:C; simpl in A; [|discriminate].
    exists comb, out. repeat split; trivial. now exists file, rest.
Qed.

(** The measurement rows of the combined table of a run that wrote its
    output are the input rows of the directory. *)
Lemma written_measurements (d : string) (st : state) (comb : DataFrame) :
  concat (map normalize (tables (fs st) (inputs d (fs st)))) = Ok comb ->
  measurements comb = input_rows d (fs st).
Proof. intros H. now rewrite (concat_measurements _ _ H). Qed.

(** The frequency column of a written output: the distinct frequency
    values of the input rows, missing values left out, sorted. *)
Lemma written_keys (d : string) (st : state) (out : DataFrame) :
  lookup (fs (snd (main (Dir d) st))) (final_csv d) = Some (Table out) ->
  map (frequency_of out) (rows out) =
  sort_keys (nodup cell_eq_dec
                   (filter notna (map fst (input_rows d (fs st))))).
Proof.
  intros H. apply main_written in H as (comb & out' & E & C & G & _).
  injection E as <-.
  rewrite (groupby_agg_keys _ _ G), group_keys_measurements.
  now rewrite (written_measurements _ _ _ C).
Qed.

(** The set of frequencies of a written output is the set of frequency
    values present in the input rows, each of them once. *)
Lemma written_frequency_set (d : string) (st : state) (out : DataFrame) :
  lookup (fs (snd (main (Dir d) st))) (final_csv d) = Some (Table out) ->
  NoDup (map (frequency_of out) (rows out)) /\
  forall k, In k (map (frequency_of out) (rows out)) <->
            k <> CNaN /\ In k (map fst (input_rows d (fs st))).
Proof.
  intros H. rewrite (written_keys _ _ _ H). split.
  - apply sort_keys_NoDup, NoDup_nodup.
  - intros k. rewrite sort_keys_In, nodup_In, filter_In.
    split; intros [H1 H2]; split; trivial.
    + intros ->. discriminate.
    + now destruct k.
Qed.

End Outcome.

(* ================================================================== *)
(** ** The properties of the pipeline *)

Section Claims.
Context {N : NumOps}.

Lemma filter_nonempty_In {A} (p : A -> bool) (l : list A) :
  filter p l <> [] -> exists x, In x l /\ p x = true.
Proof.
  induction l as [|a l IH]; simpl; [congruence|].
  destruct (p a) eqn:E.
  - intros _. exists a. auto.
  - intros H. destruct (IH H) as (x & Hx & Hp). exists x. auto.
Qed.

(** C2. When a run writes the aggregate file, a frequency that occurs in
    the rows of the parsed input files with the magnitudes [m1 .. mk] has
    exactly one output row, and its magnitude is the mean of [m1 .. mk]
    rounded to six decimals. *)
Theorem C2_output_magnitude_is_rounded_mean :
  forall (d : string) (st st' : state) (code : Z) (out : DataFrame)
         (f : cell) (ms : list num),
    main (Dir d) st = (code, st') ->
    lookup (fs st') (final_csv d) = Some (Table out) ->
    f <> CNaN ->
    ms <> [] ->
    map snd (filter (fun p => cell_eqb (fst p) f) (input_rows d (fs st)))
      = map CNum ms ->
    filter (fun row => cell_eqb (frequency_of out row) f) (rows out)
      = [[f; CNum (round6 (mean ms))]].
Proof.
  intros d st st' code out f ms Hrun Hout Hf Hms Hgroup.
  assert (Hw : lookup (fs (snd (main (Dir d) st))) (final_csv d)
               = Some (Table out)) by now rewrite Hrun.
  apply main_written in Hw as (comb & out' & E & C & G & _).
  injection E as <-.
  pose proof (written_measurements _ _ _ C) as Hm.
  assert (Hk : In f (group_keys comb)).
  { apply group_keys_In. split; [exact Hf|]. rewrite Hm.
    destruct (filter_nonempty_In (fun p => cell_eqb (fst p) f)
                                 (input_rows d (fs st))) as (p & Hp & E).
    - intros E. rewrite E in Hgroup. destruct ms; [congruence | discriminate].
    - apply cell_eqb_eq in E. subst f. now apply in_map. }
  destruct (groupby_agg_row _ _ _ G Hk) as (m & Hmean & Hrow).
  rewrite Hrow. rewrite group_measurements, Hm, Hgroup in Hmean.
  rewrite rounded_mean_numeric in Hmean by exact Hms.
  now injection Hmean as <-.
Qed.

(** C3. A file that fails to parse is reported and skipped, the loop going
    on with the files after it, when some file has been read before; when
    none has, the loop returns at once: the files after it are not read,
    nothing is written, and [process_csv_files] returns normally. *)
Theorem C3_parse_failure_skips_or_aborts :
  forall (file : string) (rest : list string) (st : state),
    parses (fs st) file = false ->
    (forall df dfs,
        read_loop (file :: rest) (df :: dfs) st =
        read_loop rest (df :: dfs) (with_log st [ReadFailed file])) /\
    read_loop (file :: rest) [] st =
      (Ok Returned, with_log st [ReadFailed file; NothingReadSkip]) /\
    (forall d,
        candidates d (glob_csv (fs st)) = file :: rest ->
        process_csv_files d st =
        (Ok tt, with_log st [FoundFiles (glob_csv (fs st));
                             ReadFailed file; NothingReadSkip])).
Proof.
  intros file rest st P.
  assert (S0 : scan (fs st) (file :: rest) [] =
               (Returned, [ReadFailed file; NothingReadSkip])).
  { simpl. unfold parses in P.
    destruct (lookup (fs st) file) as [[|df]|]; easy. }
  repeat split.
  - intros df dfs. rewrite !read_loop_scan. simpl.
    unfold parses in P.
    destruct (lookup (fs st) file) as [[|df']|]; try discriminate;
      simpl; now rewrite with_log_app.
  - now rewrite read_loop_scan, S0.
  - intros d Hc. rewrite process_csv_files_eq.
    destruct (glob_csv (fs st)) as [|g gs] eqn:G; [discriminate|].
    cbv zeta. now rewrite Hc, S0.
Qed.

Lemma glob_csv_empty_no_final (d : string) (f : files) :
  glob_csv f = [] -> exists_file f (final_csv d) = false.
Proof.
  intros G. destruct (exists_file f (final_csv d)) eqn:E; [|reflexivity].
  apply exists_file_In in E.
  assert (H : In (final_csv d) (glob_csv f)).
  { unfold glob_csv. apply filter_In. split; [exact E|].
    apply final_csv_is_csv. }
  rewrite G in H. contradiction.
Qed.

(** C6. In a directory without CSV files [process_csv_files] raises the
    [ValueError] of line 49, the process exits with status 1, and the
    directory is left as it was. *)
Theorem C6_no_csv_files_is_an_error :
  forall (d : string) (st : state),
    glob_csv (fs st) = [] ->
    process_csv_files d st = (Raise (ValueError NoCsvFiles), st) /\
    main (Dir d) st =
      (1%Z, {| fs := fs st;
               log := log st ++ [NotPresent (final_csv d);
                                 ErrorMessage (ValueError NoCsvFiles)] |}).
Proof.
  intros d st G. split.
  - rewrite process_csv_files_eq. now rewrite G.
  - rewrite main_Dir_eq. cbv zeta. unfold inputs, removal_message.
    rewrite G. simpl.
    rewrite (glob_csv_empty_no_final d _ G).
    now rewrite unlink_absent by apply (glob_csv_empty_no_final d _ G).
Qed.

(** C8. When the loop has kept some frames and the combined table lacks
    [Frequency(Hz)] or [Magnitude(dB)], grouping raises a [KeyError]:
    [process_csv_files] leaves the directory as it is, and the run ends
    with status 1 and without an aggregate file. *)
Theorem C8_missing_column_aborts :
  forall (d : string) (st st1 : state) (dfs : list DataFrame)
         (comb : DataFrame),
    read_loop (inputs d (fs st)) [] st = (Ok (Completed dfs), st1) ->
    concat dfs = Ok comb ->
    has_column comb FREQ = false \/ has_column comb MAG = false ->
    exists column,
      groupby_agg comb = Raise (KeyError column) /\
      fst (process_csv_files d st) = Raise (KeyError column) /\
      fs (snd (process_csv_files d st)) = fs st /\
      fst (main (Dir d) st) = 1%Z /\
      lookup (fs (snd (main (Dir d) st))) (final_csv d) = None /\
      In (UnknownError (KeyError column)) (log (snd (main (Dir d) st))).
Proof.
  intros d st st1 dfs comb Hloop Hc Hmiss.
  destruct (groupby_agg_missing comb Hmiss) as (column & Hg).
  exists column. split; [exact Hg|].
  rewrite read_loop_scan in Hloop. injection Hloop as Hs _.
  assert (Hne : dfs <> []) by (intros ->; discriminate).
  pose proof Hs as Hs'. rewrite scan_first in Hs'.
  destruct (inputs d (fs st)) as [|file rest] eqn:I;
    [injection Hs' as <-; contradiction|].
  destruct (parses (fs st) file) eqn:P; [|discriminate].
  assert (Hd : map normalize (tables (fs st) (file :: rest)) = dfs)
    by congruence.
  assert (A : aggregate dfs = Raise (KeyError column)).
  { unfold aggregate. rewrite Hc. exact Hg. }
  repeat split.
  - rewrite process_csv_files_eq. unfold inputs in I.
    destruct (glob_csv (fs st)) as [|g gs] eqn:G; [discriminate|].
    cbv zeta. rewrite I, Hs.
    destruct dfs as [|df dfs']; [contradiction|]. now rewrite A.
  - rewrite process_csv_files_eq. unfold inputs in I.
    destruct (glob_csv (fs st)) as [|g gs] eqn:G; [discriminate|].
    cbv zeta. rewrite I, Hs.
    destruct dfs as [|df dfs']; [contradiction|]. now rewrite A.
  - rewrite main_Dir_eq. cbv zeta. now rewrite I, P, Hd, A.
  - rewrite main_Dir_eq. cbv zeta. rewrite I, P, Hd, A. cbn [snd fs].
    apply lookup_cleaned.
  - rewrite main_Dir_eq. cbv zeta. rewrite I, P, Hd, A. cbn [snd log].
    rewrite !in_app_iff. right. right. now left.
Qed.

(** C9. On a file whose table lacks [Frequency(Hz)] or [Magnitude(dB)]
    the viewer prints the message of line 97, plots nothing and returns
    normally to its caller. *)
Theorem C9_viewer_missing_column_is_soft :
  forall (file : string) (df : DataFrame) (st : state),
    lookup (fs st) file = Some (Table df) ->
    has_column df FREQ = false \/ has_column df MAG = false ->
    show_gui file st = (Ok tt, with_log st [ColumnsMissing]).
Proof.
  intros file df st H Hmiss. unfold show_gui. unfold bind, try.
  rewrite (read_csv_ok file df st H).
  destruct Hmiss as [-> | ->]; [reflexivity|].
  now rewrite orb_true_r.
Qed.

End Claims.

Section Lifecycle.
Context {N : NumOps}.




(** C4. The aggregate file of an earlier run is deleted when the run
    starts and is never a candidate input; the exit status and the
    directory after the run are those of a run on the directory without
    that file; and a second run on the directory the first one left gives
    back the same directory. *)
Theorem C4_rerun_is_idempotent :
  forall (d : string) (st : state),
    exists_file (fs (snd (remove_final_csv d st))) (final_csv d) = false /\
    ~ In (final_csv d) (candidates d (glob_csv (fs st))) /\
    (forall lg,
        let clean := {| fs := unlink (fs st) (final_csv d); log := lg |} in
        fst (main (Dir d) st) = fst (main (Dir d) clean) /\
        fs (snd (main (Dir d) st)) = fs (snd (main (Dir d) clean))) /\
    (forall lg,
        let again := {| fs := fs (snd (main (Dir d) st)); log := lg |} in
        fst (main (Dir d) again) = fst (main (Dir d) st) /\
        fs (snd (main (Dir d) again)) = fs (snd (main (Dir d) st))).
Proof.
  intros d st. repeat split.
  - rewrite remove_final_csv_eq. apply exists_file_unlink.
  - apply candidates_not_final.
  - apply main_cleaned. cbn [fs]. now rewrite unlink_idem.
  - apply main_cleaned. cbn [fs]. now rewrite unlink_idem.
  - apply main_cleaned. cbn [fs].
    destruct (main_listing d st) as [-> | (out & ->)].
    + apply unlink_idem.
    + rewrite <- (write_absent _ _ (Table out)) by apply exists_file_unlink.
      apply unlink_write, exists_file_unlink.
  - apply main_cleaned. cbn [fs].
    destruct (main_listing d st) as [-> | (out & ->)].
    + apply unlink_idem.
    + rewrite <- (write_absent _ _ (Table out)) by apply exists_file_unlink.
      apply unlink_write, exists_file_unlink.
Qed.




End Lifecycle.

(* ================================================================== *)
(** ** Stripping padded text *)

Section StripFacts.
Local Open Scope string_scope.

Lemma lstrip_app_space (l s : string) :
  PyStr.all_space l = true -> PyStr.lstrip (l ++ s) = PyStr.lstrip s.
Proof.
  induction l as [|c l IH]; simpl; [reflexivity|].
  intros H. apply andb_prop in H as [Hc Hl]. rewrite Hc. now apply IH.
Qed.

Lemma lstrip_trimmed (s : string) :
  PyStr.opt_space (PyStr.first_char s) = false -> PyStr.lstrip s = s.
Proof. destruct s as [|c s]; simpl; [reflexivity|]. now intros ->. Qed.

Lemma rstrip_all_space (r : string) :
  PyStr.all_space r = true -> PyStr.rstrip r = "".
Proof.
  induction r as [|c r IH]; simpl; [reflexivity|].
  intros H. apply andb_prop in H as [Hc Hr]. now rewrite IH, Hc.
Qed.

Lemma rstrip_app_space (s r : string) :
  PyStr.all_space r = true -> PyStr.rstrip (s ++ r) = PyStr.rstrip s.
Proof.
  intros H. induction s as [|c s IH]; simpl.
  - now apply rstrip_all_space.
  - now rewrite IH.
Qed.

Lemma rstrip_trimmed (s : string) :
  PyStr.opt_space (PyStr.last_char s) = false -> PyStr.rstrip s = s.
Proof.
  induction s as [|c s IH]; [reflexivity|].
  destruct s as [|c' s'].
  - simpl. now intros ->.
  - intros H. change (PyStr.rstrip (String c (String c' s')))
      with (match PyStr.rstrip (String c' s') with
            | "" => if PyStr.is_space c then "" else String c ""
            | r => String c r
            end).
    now rewrite IH.
Qed.

(** White space around a trimmed text is all that [strip] removes. *)
Lemma strip_padded (l t r : string) :
  PyStr.trimmed t ->
  PyStr.all_space l = true -> PyStr.all_space r = true ->
  PyStr.strip (l ++ t ++ r) = t.
Proof.
  intros [Hf Hl] Hsl Hsr. unfold PyStr.strip.
  rewrite lstrip_app_space by exact Hsl.
  destruct t as [|c t].
  - simpl. destruct (PyStrFacts.lstrip_split r) as (l' & Hr & _).
    assert (E : PyStr.lstrip r = "").
    { clear Hr l'. induction r as [|a r IH]; simpl; [reflexivity|].
      simpl in Hsr. apply andb_prop in Hsr as [Ha Hr]. rewrite Ha. now apply IH. }
    now rewrite E.
  - rewrite lstrip_trimmed.
    + rewrite rstrip_app_space by exact Hsr. now apply rstrip_trimmed.
    + simpl. exact Hf.
Qed.

End StripFacts.

Section Normalisation.
Context {N : NumOps}.






End Normalisation.

(* ================================================================== *)
(** ** The order of the output rows *)

Section Ordering.
Context {N : NumOps}.

Lemma lookup_In (f : files) (name : string) (c : content) :
  NoDup (map fst f) -> (lookup f name = Some c <-> In (name, c) f).
Proof.
  induction f as [|[n c'] f IH]; simpl; intros Hnd.
  - split; [discriminate | contradiction].
  - inversion Hnd as [|? ? Hn Hnd']; subst.
    destruct (String.eqb n name) eqn:E.
    + apply String.eqb_eq in E. subst n. split.
      * intros H. injection H as <-. now left.
      * intros [H|H]; [congruence|].
        exfalso. apply Hn. change name with (fst (name, c)). now apply in_map.
    + rewrite (IH Hnd'). split; [now right|].
      intros [H|H]; [|exact H].
      injection H as -> _. now rewrite String.eqb_refl in E.
Qed.

Lemma lookup_perm (f1 f2 : files) (name : string) :
  NoDup (map fst f1) -> Permutation f1 f2 -> lookup f1 name = lookup f2 name.
Proof.
  intros Hnd Hp.
  assert (Hnd2 : NoDup (map fst f2)).
  { eapply Permutation_NoDup; [|exact Hnd]. now apply Permutation_map. }
  destruct (lookup f1 name) as [c|] eqn:E1.
  - symmetry. apply (lookup_In f2 name c Hnd2).
    eapply Permutation_in; [exact Hp|]. now apply (lookup_In f1 name c Hnd).
  - destruct (lookup f2 name) as [c|] eqn:E2; [|reflexivity].
    apply (lookup_In f2 name c Hnd2) in E2.
    apply (Permutation_in _ (Permutation_sym Hp)) in E2.
    apply (lookup_In f1 name c Hnd) in E2. congruence.
Qed.

Lemma inputs_perm (d : string) (f1 f2 : files) (file : string) :
  Permutation f1 f2 -> In file (inputs d f1) -> In file (inputs d f2).
Proof.
  intros Hp. unfold inputs, candidates, glob_csv. rewrite !filter_In.
  intros [[H1 H2] H3]. repeat split; trivial.
  eapply Permutation_in; [|exact H1]. now apply Permutation_map.
Qed.

Lemma tables_In (f : files) (names : list string) (df : DataFrame) :
  In df (tables f names) <->
  exists file, In file names /\ lookup f file = Some (Table df).
Proof.
  unfold tables. rewrite in_flat_map. split.
  - intros (file & Hf & Hd). exists file. split; [exact Hf|].
    destruct (lookup f file) as [[|df']|]; try contradiction.
    destruct Hd as [->|[]]. reflexivity.
  - intros (file & Hf & Hl). exists file. split; [exact Hf|].
    rewrite Hl. now left.
Qed.

Lemma input_rows_perm (d : string) (f1 f2 : files) (p : cell * cell) :
  NoDup (map fst f1) -> Permutation f1 f2 ->
  In p (input_rows d f1) -> In p (input_rows d f2).
Proof.
  intros Hnd Hp. unfold input_rows. rewrite !in_flat_map.
  intros (df & Hdf & Hin). exists df. split; [|exact Hin].
  rewrite in_map_iff in *. destruct Hdf as (t & <- & Ht).
  exists t. split; [reflexivity|].
  apply tables_In in Ht as (file & Hf & Hl). apply tables_In.
  exists file. split; [now apply (inputs_perm d f1 f2)|].
  now rewrite <- (lookup_perm f1 f2 file Hnd Hp).
Qed.

Context {O : NumOrder N}.

(** C10. The rows of a written aggregate file are in strictly ascending
    order of their frequency; and two runs on directories that hold the
    same files, enumerated in any two orders, that both write the file
    write the same sequence of frequencies. *)
Theorem C10_output_rows_ascend_by_frequency :
  (forall (d : string) (st : state) (out : DataFrame),
      lookup (fs (snd (main (Dir d) st))) (final_csv d) = Some (Table out) ->
      StronglySorted key_lt (map (frequency_of out) (rows out))) /\
  (forall (d : string) (st1 st2 : state) (out1 out2 : DataFrame),
      NoDup (map fst (fs st1)) ->
      Permutation (fs st1) (fs st2) ->
      lookup (fs (snd (main (Dir d) st1))) (final_csv d) = Some (Table out1) ->
      lookup (fs (snd (main (Dir d) st2))) (final_csv d) = Some (Table out2) ->
      map (frequency_of out1) (rows out1) = map (frequency_of out2) (rows out2)).
Proof.
  assert (Hsorted : forall d st out,
    lookup (fs (snd (main (Dir d) st))) (final_csv d) = Some (Table out) ->
    StronglySorted key_lt (map (frequency_of out) (rows out))).
  { intros d st out H. rewrite (written_keys _ _ _ H).
    apply strict_of_NoDup.
    - apply sort_keys_NoDup, NoDup_nodup.
    - apply sort_keys_strongly_sorted. }
  split; [exact Hsorted|].
  intros d st1 st2 out1 out2 Hnd Hp H1 H2.
  apply strictly_sorted_unique; eauto.
  intros k.
  rewrite (proj2 (written_frequency_set _ _ _ H1) k).
  rewrite (proj2 (written_frequency_set _ _ _ H2) k).
  assert (Hnd2 : NoDup (map fst (fs st2))).
  { eapply Permutation_NoDup; [|exact Hnd]. now apply Permutation_map. }
  rewrite !in_map_iff.
  split; intros [Hk (p & E & Hin)]; (split; [exact Hk|]); exists p;
    (split; [exact E|]).
  - now apply (input_rows_perm d (fs st1) (fs st2)).
  - apply (input_rows_perm d (fs st2) (fs st1)); trivial.
    now apply Permutation_sym.
Qed.

End Ordering.

(* ================================================================== *)
(** ** Running the model *)

#[export] Instance millionths_order : NumOrder millionths.
Proof.
  split; simpl; intros.
  - lia.
  - lia.
  - lia.
Defined.

Example sweep_run :
  main (Dir "sweep") (Sweep.start Sweep.listing) =
  (0%Z,
   {| fs := [("a.csv", Table Sweep.a_csv); ("b.csv", Table Sweep.b_csv);
             ("notes.txt", Garbled); ("sweep.csv", Table Sweep.sweep_csv)];
      log := [Deleted "sweep.csv"; FoundFiles ["a.csv"; "b.csv"];
              Saved "sweep.csv"; Plot Sweep.sweep_csv] |}).
Proof. vm_compute. reflexivity. Qed.

(** C1. A directory that holds a file [read_csv] rejects and, enumerated
    after it, a table with both required columns: the run stops at the
    first file, reads nothing else and writes no aggregate file, although
    the same two files enumerated the other way round give one. *)
Theorem C1_unparsable_first_file_discards_the_rest :
  main (Dir "sweep") (Sweep.start Sweep.bad_first) =
    (0%Z,
     {| fs := Sweep.bad_first;
        log := [NotPresent "sweep.csv"; FoundFiles ["a.csv"; "b.csv"];
                ReadFailed "a.csv"; NothingReadSkip; NotGenerated] |}) /\
  parses Sweep.bad_first "b.csv" = true /\
  has_column (normalize Sweep.b_csv) FREQ = true /\
  has_column (normalize Sweep.b_csv) MAG = true /\
  lookup (fs (snd (main (Dir "sweep") (Sweep.start Sweep.bad_first))))
         "sweep.csv" = None /\
  exists out,
    lookup (fs (snd (main (Dir "sweep") (Sweep.start Sweep.bad_last))))
           "sweep.csv" = Some (Table out).
Proof.
  repeat split; try (vm_compute; reflexivity).
  eexists. vm_compute. reflexivity.
Qed.


(* ================================================================== *)
(** ** The theorems at work on [sweep/] *)

Lemma C2_witness :
  filter (fun row => cell_eqb (frequency_of Sweep.sweep_csv row)
                              (CNum 100000000%Z))
         (rows Sweep.sweep_csv)
  = [[CNum 100000000%Z;
      CNum (round6 (mean [(-3000000)%Z; (-3500000)%Z]))]].
Proof.
  apply (C2_output_magnitude_is_rounded_mean
           (N := millionths) "sweep" (Sweep.start Sweep.listing)
           (snd (main (Dir "sweep") (Sweep.start Sweep.listing))) 0%Z
           Sweep.sweep_csv (@CNum millionths 100000000%Z)
           [(-3000000)%Z; (-3500000)%Z]).
  - vm_compute. reflexivity.
  - vm_compute. reflexivity.
  - discriminate.
  - discriminate.
  - vm_compute. reflexivity.
Defined.

Lemma C3_witness :
  read_loop ["a.csv"; "b.csv"] [] (Sweep.start Sweep.bad_first) =
    (Ok Returned,
     with_log (Sweep.start Sweep.bad_first)
              [ReadFailed "a.csv"; NothingReadSkip]) /\
  read_loop ["a.csv"; "b.csv"] [Sweep.sweep_csv] (Sweep.start Sweep.bad_first) =
    read_loop ["b.csv"] [Sweep.sweep_csv]
              (with_log (Sweep.start Sweep.bad_first) [ReadFailed "a.csv"]).
Proof.
  assert (P : parses (fs (Sweep.start Sweep.bad_first)) "a.csv" = false)
    by (vm_compute; reflexivity).
  destruct (C3_parse_failure_skips_or_aborts
              "a.csv" ["b.csv"] (Sweep.start Sweep.bad_first) P)
    as (Hskip & Habort & _).
  split; [exact Habort | apply Hskip].
Defined.

Lemma C6_witness :
  main (Dir "sweep") (Sweep.start Sweep.no_csv) =
  (1%Z, {| fs := Sweep.no_csv;
           log := [NotPresent "sweep.csv";
                   ErrorMessage (ValueError NoCsvFiles)] |}).
Proof.
  apply (C6_no_csv_files_is_an_error "sweep" (Sweep.start Sweep.no_csv)).
  vm_compute. reflexivity.
Defined.


Lemma C8_witness :
  exists column,
    groupby_agg Sweep.timing_csv = Raise (KeyError column) /\
    fst (process_csv_files "sweep" (Sweep.start Sweep.only_timing))
      = Raise (KeyError column) /\
    fs (snd (process_csv_files "sweep" (Sweep.start Sweep.only_timing)))
      = Sweep.only_timing /\
    fst (main (Dir "sweep") (Sweep.start Sweep.only_timing)) = 1%Z /\
    lookup (fs (snd (main (Dir "sweep") (Sweep.start Sweep.only_timing))))
           (final_csv "sweep") = None /\
    In (UnknownError (KeyError column))
       (log (snd (main (Dir "sweep") (Sweep.start Sweep.only_timing)))).
Proof.
  apply (C8_missing_column_aborts
           "sweep" (Sweep.start Sweep.only_timing)
           (Sweep.start Sweep.only_timing) [Sweep.timing_csv]
           Sweep.timing_csv).
  - vm_compute. reflexivity.
  - vm_compute. reflexivity.
  - left. vm_compute. reflexivity.
Defined.

Lemma C9_witness :
  show_gui "t.csv" (Sweep.start Sweep.only_timing) =
  (Ok tt, with_log (Sweep.start Sweep.only_timing) [ColumnsMissing]).
Proof.
  apply (C9_viewer_missing_column_is_soft
           "t.csv" Sweep.timing_csv (Sweep.start Sweep.only_timing)).
  - vm_compute. reflexivity.
  - left. vm_compute. reflexivity.
Defined.

Lemma C10_witness :
  StronglySorted key_lt
    (map (frequency_of Sweep.sweep_csv) (rows Sweep.sweep_csv)) /\
  forall out,
    lookup (fs (snd (main (Dir "sweep")
                          (Sweep.start [("b.csv", Table Sweep.b_csv);
                                        ("a.csv", Table Sweep.a_csv)]))))
           (final_csv "sweep") = Some (Table out) ->
    map (frequency_of Sweep.sweep_csv) (rows Sweep.sweep_csv)
    = map (frequency_of out) (rows out).
Proof.
  destruct (@C10_output_rows_ascend_by_frequency millionths millionths_order)
    as (Hsorted & Horder).
  split.
  - apply (Hsorted "sweep" (Sweep.start Sweep.listing)).
    vm_compute. reflexivity.
  - intros out Hout.
    apply (Horder "sweep"
                  (Sweep.start [("a.csv", Table Sweep.a_csv);
                                ("b.csv", Table Sweep.b_csv)])
                  (Sweep.start [("b.csv", Table Sweep.b_csv);
                                ("a.csv", Table Sweep.a_csv)])).
    + simpl. repeat constructor; simpl; intuition discriminate.
    + simpl. apply perm_swap.
    + vm_compute. reflexivity.
    + exact Hout.
Defined.

(* ================================================================== *)
(** ** Further properties of a run *)

Section RunProperties.
Context {N : NumOps}.


(** X2. A run changes nothing in the directory but the aggregate file:
    every other file is there afterwards, with its content and in its
    place. *)
Theorem X2_only_the_aggregate_file_changes :
  forall (d : string) (st : state),
    unlink (fs (snd (main (Dir d) st))) (final_csv d)
    = unlink (fs st) (final_csv d).
Proof.
  intros d st. destruct (main_listing d st) as [-> | (out & ->)].
  - apply unlink_idem.
  - rewrite <- (write_absent _ _ (Table out)) by apply exists_file_unlink.
    apply unlink_write, exists_file_unlink.
Qed.

(** X4. Called on a directory whose only CSV file is the aggregate file
    itself, [process_csv_files] reads nothing, prints the message of line
    73 and returns without writing. *)
Theorem X4_only_the_aggregate_file_present :
  forall (d : string) (st : state),
    glob_csv (fs st) <> [] ->
    candidates d (glob_csv (fs st)) = [] ->
    process_csv_files d st =
    (Ok tt, with_log st [FoundFiles (glob_csv (fs st)); NoUsableData]).
Proof.
  intros d st Hg Hc. rewrite process_csv_files_eq.
  destruct (glob_csv (fs st)) as [|g gs]; [contradiction|].
  cbv zeta. rewrite Hc. simpl. now rewrite with_log_app.
Qed.


(** X6. When the directory holds CSV files and [read_csv] rejects every
    one of them, the run still ends with status 0: it writes nothing and
    prints the message of line 143. *)
Theorem X6_all_unreadable_exits_0 :
  forall (d : string) (st : state),
    inputs d (fs st) <> [] ->
    tables (fs st) (inputs d (fs st)) = [] ->
    fst (main (Dir d) st) = 0%Z /\
    fs (snd (main (Dir d) st)) = unlink (fs st) (final_csv d) /\
    In NotGenerated (log (snd (main (Dir d) st))).
Proof.
  intros d st Hne Ht. rewrite main_Dir_eq. cbv zeta.
  destruct (inputs d (fs st)) as [|file rest] eqn:I; [contradiction|].
  assert (P : parses (fs st) file = false).
  { unfold parses. unfold tables in Ht. simpl in Ht.
    destruct (lookup (fs st) file) as [[|df]|]; try reflexivity.
    discriminate. }
  rewrite P. cbn [fst snd fs log]. repeat split.
  rewrite !in_app_iff. right. right. now left.
Qed.

End RunProperties.

Section AggregatorProperties.
Context {N : NumOps}.

Lemma lookup_write_other (f : files) (name file : string) (c : content) :
  file <> name -> lookup (write f name c) file = lookup f file.
Proof.
  intros Hne. induction f as [|[n c'] f IH]; simpl.
  - destruct (String.eqb name file) eqn:E; [|reflexivity].
    apply String.eqb_eq in E. congruence.
  - destruct (String.eqb n name) eqn:E; simpl; [|now rewrite IH].
    apply String.eqb_eq in E. subst n.
    destruct (String.eqb name file) eqn:E'; [|reflexivity].
    apply String.eqb_eq in E'. congruence.
Qed.

Lemma write_write (f : files) (name : string) (c : content) :
  write (write f name c) name c = write f name c.
Proof.
  induction f as [|[n c'] f IH]; simpl.
  - now rewrite String.eqb_refl.
  - destruct (String.eqb n name) eqn:E; simpl; rewrite E; [reflexivity|].
    now rewrite IH.
Qed.

Lemma candidates_write (d : string) (f : files) (c : content) :
  candidates d (glob_csv (write f (final_csv d) c)) = candidates d (glob_csv f).
Proof.
  unfold candidates, glob_csv.
  induction f as [|[n c'] f IH].
  - cbn [write map fst filter]. rewrite final_csv_is_csv. cbn [filter].
    now rewrite String.eqb_refl.
  - cbn [write]. destruct (String.eqb n (final_csv d)) eqn:E; [reflexivity|].
    cbn [map fst filter]. destruct (PyStr.endswith n ".csv"); [|exact IH].
    cbn [filter]. rewrite E. cbn [negb]. now rewrite IH.
Qed.

Lemma glob_csv_write (d : string) (f : files) (c : content) :
  glob_csv (write f (final_csv d) c) <> [].
Proof.
  assert (H : In (final_csv d) (glob_csv (write f (final_csv d) c))).
  { unfold glob_csv. apply filter_In. split; [|apply final_csv_is_csv].
    apply exists_file_In, exists_file_write. }
  intros E. now rewrite E in H.
Qed.

Lemma scan_write (d : string) (f : files) (c : content)
      (csv_files : list string) (dfs : list DataFrame) :
  scan (write f (final_csv d) c) (candidates d csv_files) dfs
  = scan f (candidates d csv_files) dfs.
Proof.
  apply scan_ext. intros file H. apply lookup_write_other. intros ->.
  exact (candidates_not_final _ _ H).
Qed.

(** X7. [process_csv_files] leaves its own output out of its inputs:
    called again on the directory it has just left, without the file
    being deleted in between, it returns normally again and leaves the
    directory exactly as it found it. *)
Theorem X7_process_csv_files_is_idempotent :
  forall (d : string) (st st1 : state),
    process_csv_files d st = (Ok tt, st1) ->
    fst (process_csv_files d st1) = Ok tt /\
    fs (snd (process_csv_files d st1)) = fs st1.
Proof.
  intros d st st1 H. rewrite process_csv_files_eq in H.
  destruct (glob_csv (fs st)) as [|g gs] eqn:G; [discriminate|].
  cbv zeta in H. rewrite <- G in H.
  destruct (fst (scan (fs st) (candidates d (glob_csv (fs st))) []))
    as [[|df dfs]|] eqn:S.
  - injection H as <-. rewrite process_csv_files_eq. cbn [with_log fs].
    rewrite G. cbv zeta. rewrite <- G, S. now split.
  - destruct (aggregate (df :: dfs)) as [out|e] eqn:A; [|discriminate].
    injection H as <-. rewrite process_csv_files_eq. cbn [fs].
    pose proof (glob_csv_write d (fs st) (Table out)) as Hne.
    destruct (glob_csv (write (fs st) (final_csv d) (Table out)))
      as [|g' gs'] eqn:G'; [contradiction|].
    cbv zeta. rewrite <- G', candidates_write, scan_write, S, A.
    cbn [fst snd fs]. split; [reflexivity | apply write_write].
  - injection H as <-. rewrite process_csv_files_eq. cbn [with_log fs].
    rewrite G. cbv zeta. rewrite <- G, S. now split.
Qed.

Lemma lookup_csv_only (f : files) (name : string) :
  PyStr.endswith name ".csv" = true ->
  lookup (csv_only f) name = lookup f name.
Proof.
  intros H. unfold csv_only.
  induction f as [|[n c] f IH]; simpl; [reflexivity|].
  destruct (PyStr.endswith n ".csv") eqn:E; simpl.
  - now rewrite IH.
  - destruct (String.eqb n name) eqn:E'; [|exact IH].
    apply String.eqb_eq in E'. congruence.
Qed.

Lemma glob_csv_csv_only (f : files) : glob_csv (csv_only f) = glob_csv f.
Proof.
  unfold glob_csv, csv_only.
  induction f as [|[n c] f IH]; simpl; [reflexivity|].
  destruct (PyStr.endswith n ".csv") eqn:E; simpl; rewrite ?E; now rewrite IH.
Qed.

Lemma inputs_are_csv (d : string) (f : files) (file : string) :
  In file (inputs d f) -> PyStr.endswith file ".csv" = true.
Proof.
  unfold inputs, candidates, glob_csv. rewrite !filter_In. tauto.
Qed.

(** The exit status and the aggregate file of a run, read off the CSV
    entries alone. *)
Lemma main_csv_only (d : string) (st : state) :
  fst (main (Dir d) st)
    = fst (main (Dir d) {| fs := csv_only (fs st); log := [] |}) /\
  lookup (fs (snd (main (Dir d) st))) (final_csv d)
    = lookup (fs (snd (main (Dir d) {| fs := csv_only (fs st); log := [] |})))
             (final_csv d).
Proof.
  rewrite !main_Dir_eq. cbv zeta. cbn [fs log].
  assert (HI : inputs d (csv_only (fs st)) = inputs d (fs st)).
  { unfold inputs. now rewrite glob_csv_csv_only. }
  assert (HL : forall file, In file (inputs d (fs st)) ->
                            lookup (csv_only (fs st)) file = lookup (fs st) file).
  { intros file Hin. apply lookup_csv_only. eapply inputs_are_csv, Hin. }
  rewrite HI.
  rewrite (tables_ext (csv_only (fs st)) (fs st) (inputs d (fs st)) HL).
  destruct (inputs d (fs st)) as [|file rest] eqn:I; cbn [fst snd fs].
  - now rewrite !lookup_cleaned.
  - assert (P : parses (csv_only (fs st)) file = parses (fs st) file).
    { unfold parses. rewrite HL; [reflexivity | now left]. }
    rewrite P. destruct (parses (fs st) file); cbn [fst snd fs];
      [|now rewrite !lookup_cleaned].
    destruct (aggregate _) as [out|e]; cbn [fst snd fs].
    + now rewrite !lookup_appended.
    + now rewrite !lookup_cleaned.
Qed.

(** X8. Only the files that match [*.csv] count: two directories with the
    same CSV entries in the same order give the same exit status and the
    same aggregate file, whatever else they hold. *)
Theorem X8_other_files_are_ignored :
  forall (d : string) (st1 st2 : state),
    csv_only (fs st1) = csv_only (fs st2) ->
    fst (main (Dir d) st1) = fst (main (Dir d) st2) /\
    lookup (fs (snd (main (Dir d) st1))) (final_csv d)
    = lookup (fs (snd (main (Dir d) st2))) (final_csv d).
Proof.
  intros d st1 st2 H.
  destruct (main_csv_only d st1) as [-> ->].
  destruct (main_csv_only d st2) as [-> ->].
  now rewrite H.
Qed.

Lemma append_empty_r (s : string) : (s ++ "")%string = s.
Proof. induction s; simpl; congruence. Qed.

Lemma strip_idempotent (s : string) :
  PyStr.strip (PyStr.strip s) = PyStr.strip s.
Proof.
  destruct (PyStrFacts.strip_spec s) as [Ht _].
  rewrite <- (strip_padded ""%string (PyStr.strip s) ""%string Ht eq_refl eq_refl)
    at 2.
  simpl. now rewrite append_empty_r.
Qed.

(** X10. Cleaning a table that has been cleaned changes nothing: the
    frames the loop keeps are fixed points of the stripping of lines
    61-62. *)
Theorem X10_normalize_is_idempotent :
  forall df : DataFrame, normalize (normalize df) = normalize df.
Proof.
  intros df. unfold normalize. simpl. f_equal.
  - rewrite map_map. apply map_ext. apply strip_idempotent.
  - rewrite map_map. apply map_ext. intros row.
    rewrite map_map. apply map_ext. intros [x|s|]; simpl; trivial.
    now rewrite strip_idempotent.
Qed.

End AggregatorProperties.

Section OutputProperties.
Context {N : NumOps}.

(** X11. When a run writes the aggregate file, its frequencies are the
    frequency values present in the rows of the parsed input files, each
    of them once; a row without a frequency leaves no trace. *)
Theorem X11_output_frequencies_are_the_input_frequencies :
  forall (d : string) (st st' : state) (code : Z) (out : DataFrame),
    main (Dir d) st = (code, st') ->
    lookup (fs st') (final_csv d) = Some (Table out) ->
    NoDup (map (frequency_of out) (rows out)) /\
    forall k, In k (map (frequency_of out) (rows out)) <->
              k <> CNaN /\ In k (map fst (input_rows d (fs st))).
Proof.
  intros d st st' code out Hrun Hout.
  apply written_frequency_set. now rewrite Hrun.
Qed.

(** X12. A written aggregate file is a two-column table: every row has
    exactly a frequency and a magnitude, and there are no more rows than
    the parsed input files have. *)
Theorem X12_output_is_a_two_column_table :
  forall (d : string) (st st' : state) (code : Z) (out : DataFrame),
    main (Dir d) st = (code, st') ->
    lookup (fs st') (final_csv d) = Some (Table out) ->
    columns out = [FREQ; MAG] /\
    Forall (fun row => List.length row = 2) (rows out) /\
    List.length (rows out) <= List.length (input_rows d (fs st)).
Proof.
  intros d st st' code out Hrun Hout.
  assert (Hw : lookup (fs (snd (main (Dir d) st))) (final_csv d)
               = Some (Table out)) by now rewrite Hrun.
  pose proof (written_keys _ _ _ Hw) as Hk.
  apply main_written in Hw as (comb & out' & E & C & G & _).
  injection E as <-.
  destruct (groupby_agg_ok _ _ G) as (_ & _ & Hc & Hf).
  repeat split; [exact Hc | |].
  - clear Hk. induction Hf as [|k row ks rs (m & _ & ->) _ IH];
      constructor; trivial.
  - rewrite <- (length_map (frequency_of out)), Hk.
    rewrite (Permutation_length (sort_keys_perm _)).
    rewrite <- (length_map fst (input_rows d (fs st))).
    apply NoDup_incl_length; [apply NoDup_nodup|].
    intros k Hin. apply nodup_In, filter_In in Hin. tauto.
Qed.

(** X13. In a written aggregate file the magnitude of a frequency is
    computed from the numeric magnitudes of its rows alone: rows without a
    magnitude are skipped, a frequency none of whose rows has one gets a
    missing magnitude, and no row of the frequency holds text. *)
Theorem X13_missing_magnitudes_are_skipped :
  forall (d : string) (st st' : state) (code : Z) (out : DataFrame)
         (k : cell),
    main (Dir d) st = (code, st') ->
    lookup (fs st') (final_csv d) = Some (Table out) ->
    In k (map (frequency_of out) (rows out)) ->
    let g := map snd (filter (fun p => cell_eqb (fst p) k)
                             (input_rows d (fs st))) in
    existsb is_str g = false /\
    filter (fun row => cell_eqb (frequency_of out row) k) (rows out)
    = [[k; match numbers g with
           | [] => CNaN
           | v :: vs => CNum (round6 (mean (v :: vs)))
           end]].
Proof.
  intros d st st' code out k Hrun Hout Hk g.
  assert (Hw : lookup (fs (snd (main (Dir d) st))) (final_csv d)
               = Some (Table out)) by now rewrite Hrun.
  apply main_written in Hw as (comb & out' & E & C & G & _).
  injection E as <-.
  rewrite (groupby_agg_keys _ _ G) in Hk.
  destruct (groupby_agg_row _ _ _ G Hk) as (m & Hm & Hrow).
  rewrite group_measurements, (written_measurements _ _ _ C) in Hm.
  fold g in Hm. unfold rounded_mean in Hm.
  destruct (existsb is_str g); [discriminate|].
  split; [reflexivity|]. rewrite Hrow.
  destruct (numbers g); now injection Hm as <-.
Qed.

End OutputProperties.

(* ================================================================== *)
(** ** The further properties at work *)

Lemma X4_witness :
  process_csv_files "sweep" (Sweep.start Sweep.only_output) =
  (Ok tt, with_log (Sweep.start Sweep.only_output)
                   [FoundFiles ["sweep.csv"]; NoUsableData]).
Proof.
  apply (X4_only_the_aggregate_file_present
           "sweep" (Sweep.start Sweep.only_output)).
  - discriminate.
  - vm_compute. reflexivity.
Defined.


Lemma X6_witness :
  fst (main (Dir "sweep") (Sweep.start Sweep.all_bad)) = 0%Z /\
  fs (snd (main (Dir "sweep") (Sweep.start Sweep.all_bad)))
  = unlink Sweep.all_bad (final_csv "sweep") /\
  In NotGenerated (log (snd (main (Dir "sweep") (Sweep.start Sweep.all_bad)))).
Proof.
  apply (X6_all_unreadable_exits_0 "sweep" (Sweep.start Sweep.all_bad)).
  - vm_compute. discriminate.
  - vm_compute. reflexivity.
Defined.

Lemma X7_witness :
  fst (process_csv_files
         "sweep" (snd (process_csv_files "sweep" (Sweep.start Sweep.listing))))
  = Ok tt /\
  fs (snd (process_csv_files
             "sweep"
             (snd (process_csv_files "sweep" (Sweep.start Sweep.listing)))))
  = fs (snd (process_csv_files "sweep" (Sweep.start Sweep.listing))).
Proof.
  apply (X7_process_csv_files_is_idempotent
           "sweep" (Sweep.start Sweep.listing)).
  vm_compute. reflexivity.
Defined.

Lemma X8_witness :
  fst (main (Dir "sweep") (Sweep.start Sweep.listing))
  = fst (main (Dir "sweep")
              (Sweep.start (("README", Garbled) :: Sweep.listing))) /\
  lookup (fs (snd (main (Dir "sweep") (Sweep.start Sweep.listing))))
         (final_csv "sweep")
  = lookup (fs (snd (main (Dir "sweep")
                          (Sweep.start (("README", Garbled) :: Sweep.listing)))))
           (final_csv "sweep").
Proof.
  apply (X8_other_files_are_ignored
           "sweep" (Sweep.start Sweep.listing)
           (Sweep.start (("README", Garbled) :: Sweep.listing))).
  vm_compute. reflexivity.
Defined.

Lemma X11_witness :
  NoDup (map (frequency_of Sweep.sweep_csv) (rows Sweep.sweep_csv)) /\
  (In (CNum 200000000%Z)
      (map (frequency_of Sweep.sweep_csv) (rows Sweep.sweep_csv)) <->
   @CNum millionths 200000000%Z <> CNaN /\
   In (CNum 200000000%Z) (map fst (input_rows "sweep" Sweep.listing))).
Proof.
  assert (H1 : main (Dir "sweep") (Sweep.start Sweep.listing)
               = (0%Z, snd (main (Dir "sweep") (Sweep.start Sweep.listing))))
    by (vm_compute; reflexivity).
  assert (H2 : lookup (fs (snd (main (Dir "sweep")
                                     (Sweep.start Sweep.listing))))
                      (final_csv "sweep") = Some (Table Sweep.sweep_csv))
    by (vm_compute; reflexivity).
  destruct (X11_output_frequencies_are_the_input_frequencies
              "sweep" (Sweep.start Sweep.listing) _ 0%Z Sweep.sweep_csv H1 H2)
    as [Hnd Hk].
  split; [exact Hnd | apply Hk].
Defined.

Lemma X12_witness :
  columns Sweep.sweep_csv = [FREQ; MAG] /\
  Forall (fun row => List.length row = 2) (rows Sweep.sweep_csv) /\
  List.length (rows Sweep.sweep_csv)
  <= List.length (input_rows "sweep" Sweep.listing).
Proof.
  apply (X12_output_is_a_two_column_table
           "sweep" (Sweep.start Sweep.listing)
           (snd (main (Dir "sweep") (Sweep.start Sweep.listing))) 0%Z
           Sweep.sweep_csv).
  - vm_compute. reflexivity.
  - vm_compute. reflexivity.
Defined.

Lemma X13_witness :
  filter (fun row => cell_eqb (frequency_of Sweep.gaps_out row)
                              (CNum 300000000%Z))
         (rows Sweep.gaps_out)
  = [[CNum 300000000%Z; CNaN]].
Proof.
  assert (H1 : main (Dir "sweep") (Sweep.start Sweep.with_gaps)
               = (0%Z, snd (main (Dir "sweep") (Sweep.start Sweep.with_gaps))))
    by (vm_compute; reflexivity).
  assert (H2 : lookup (fs (snd (main (Dir "sweep")
                                     (Sweep.start Sweep.with_gaps))))
                      (final_csv "sweep") = Some (Table Sweep.gaps_out))
    by (vm_compute; reflexivity).
  assert (H3 : In (@CNum millionths 300000000%Z)
                  (map (frequency_of Sweep.gaps_out) (rows Sweep.gaps_out)))
    by (right; left; reflexivity).
  destruct (X13_missing_magnitudes_are_skipped
              "sweep" (Sweep.start Sweep.with_gaps) _ 0%Z Sweep.gaps_out
              (@CNum millionths 300000000%Z) H1 H2 H3) as [_ H].
  vm_compute in H. vm_compute. exact H.
Defined.

(* ================================================================== *)
(** ** Runs in which the operating system refuses a call *)

Section OsFacts.
Context {N : NumOps}.

Lemma Os_remove_final_csv_eq (E : Os.faults) (d : string) (st : state) :
  Os.remove_final_csv E d st =
  if exists_file (fs st) (final_csv d) && Os.unlink_raises E
  then (Raise OSError, st)
  else remove_final_csv d st.
Proof.
  unfold Os.remove_final_csv, remove_final_csv. unfold_monad.
  destruct (exists_file (fs st) (final_csv d)), (Os.unlink_raises E);
    reflexivity.
Qed.

Lemma Os_process_csv_files_eq (E : Os.faults) (d : string) (st : state) :
  Os.process_csv_files E d st =
  match glob_csv (fs st) with
  | [] => (Raise (ValueError NoCsvFiles), st)
  | file :: files' =>
      let g := file :: files' in
      let s := scan (fs st) (candidates d g) [] in
      let st1 := with_log st (FoundFiles g :: snd s) in
      match fst s with
      | Returned => (Ok tt, st1)
      | Completed [] => (Ok tt, with_log st1 [NoUsableData])
      | Completed (df :: dfs) =>
          match aggregate (df :: dfs) with
          | Ok out =>
              if Os.to_csv_raises E then (Raise OSError, st1)
              else (Ok tt,
                    {| fs := write (fs st) (final_csv d) (Table out);
                       log := log st1 ++ [Saved (final_csv d)] |})
          | Raise e => (Raise e, st1)
          end
      end
  end.
Proof.
  unfold Os.process_csv_files. unfold bind at 1. unfold get_fs at 1.
  destruct (glob_csv (fs st)) as [|file files'] eqn:G; [reflexivity|].
  cbv zeta. unfold bind at 1. unfold print at 1.
  unfold bind at 1. rewrite read_loop_scan. cbn [fs log].
  fold (with_log st [FoundFiles (file :: files')]).
  rewrite with_log_app. cbn [app].
  destruct (fst (scan (fs st) (candidates d (file :: files')) []))
    as [[|df dfs]|]; try reflexivity.
  unfold aggregate. unfold bind at 1. unfold lift at 1.
  destruct (concat (df :: dfs)) as [comb|e]; cbn [rbind]; [|reflexivity].
  unfold bind at 1. unfold lift at 1.
  destruct (groupby_agg comb) as [out|e]; [|reflexivity].
  unfold Os.to_csv. destruct (Os.to_csv_raises E);
    unfold bind, raise, get_fs, put_fs, print; reflexivity.
Qed.

Lemma Os_show_gui_eq (E : Os.faults) (file : string) (st : state) :
  Os.show_gui E file st =
  match lookup (fs st) file with
  | Some (Table df) =>
      if negb (has_column df FREQ) || negb (has_column df MAG)
      then (Ok tt, with_log st [ColumnsMissing])
      else if Os.window_raises E then (Raise TclError, st)
           else (Ok tt, with_log st [Plot df])
  | _ => (Ok tt, with_log st [ViewerReadFailed file])
  end.
Proof.
  unfold Os.show_gui. unfold bind, try.
  destruct (lookup (fs st) file) as [[|df]|] eqn:L.
  - rewrite read_csv_fail by (unfold parses; now rewrite L). reflexivity.
  - rewrite (read_csv_ok file df st L).
    destruct (negb (has_column df FREQ) || negb (has_column df MAG));
      [reflexivity|].
    destruct (Os.window_raises E); reflexivity.
  - rewrite read_csv_fail by (unfold parses; now rewrite L). reflexivity.
Qed.

Lemma Os_get_directory_usable (p : Os.path) (st : state) :
  Os.usable p = true ->
  Os.get_directory p st = (Ok (Os.path_name p), st).
Proof.
  unfold Os.usable, Os.get_directory.
  destruct (Os.path_exists p), (Os.path_is_dir p), (Os.path_readable p);
    try discriminate.
  reflexivity.
Qed.

(** A run on a usable path, case by case. *)
Lemma Os_main_eq (E : Os.faults) (p : Os.path) (st : state) :
  Os.usable p = true ->
  Os.main E p st =
  let d := Os.path_name p in
  let f := fs st in
  let final := final_csv d in
  let f0 := unlink f final in
  let s := scan f (inputs d f) [] in
  let seen := removal_message d f :: FoundFiles (inputs d f) :: snd s in
  if exists_file f final && Os.unlink_raises E
  then (1%Z, with_log st [UnknownError OSError])
  else
    match inputs d f with
    | [] =>
        (1%Z, {| fs := f0;
                 log := log st ++ [removal_message d f;
                                   ErrorMessage (ValueError NoCsvFiles)] |})
    | file :: _ =>
        if parses f file then
          match aggregate (map normalize (tables f (inputs d f))) with
          | Ok out =>
              if Os.to_csv_raises E
              then (1%Z, {| fs := f0;
                            log := log st ++ seen ++ [UnknownError OSError] |})
              else if Os.window_raises E
              then (1%Z, {| fs := f0 ++ [(final, Table out)];
                            log := log st ++ seen
                                   ++ [Saved final; UnknownError TclError] |})
              else (0%Z, {| fs := f0 ++ [(final, Table out)];
                            log := log st ++ seen ++ [Saved final; Plot out] |})
          | Raise e =>
              (1%Z, {| fs := f0; log := log st ++ seen ++ [failure_message e] |})
          end
        else
          (0%Z, {| fs := f0; log := log st ++ seen ++ [NotGenerated] |})
    end.
Proof.
  intros Hu. cbv zeta. unfold Os.main, Os.main_body.
  unfold bind at 1. rewrite (Os_get_directory_usable p st Hu).
  set (d := Os.path_name p).
  unfold bind at 1. rewrite Os_remove_final_csv_eq.
  destruct (exists_file (fs st) (final_csv d) && Os.unlink_raises E) eqn:U;
    [reflexivity|].
  rewrite remove_final_csv_eq. fold (removal_message d (fs st)).
  unfold bind at 1. rewrite Os_process_csv_files_eq. cbn [fs log].
  rewrite glob_csv_cleaned.
  destruct (inputs d (fs st)) as [|file rest] eqn:I;
    [cbn [fs log is_ValueError]; now rewrite <- app_assoc|].
  cbv zeta. rewrite <- I, candidates_inputs, scan_unlink, scan_first, I.
  unfold with_log. cbn [fs log].
  destruct (parses (fs st) file) eqn:P.
  - rewrite <- I.
    assert (Hne : exists df dfs,
               map normalize (tables (fs st) (inputs d (fs st))) = df :: dfs).
    { rewrite I. unfold parses in P. unfold tables. simpl.
      destruct (lookup (fs st) file) as [[|df]|]; try discriminate.
      simpl. now eexists; eexists. }
    destruct Hne as (df & dfs & ->).
    destruct (aggregate (df :: dfs)) as [out|e] eqn:A.
    + destruct (Os.to_csv_raises E).
      * cbn [fs log is_ValueError]. f_equal. f_equal.
        repeat (rewrite <- app_assoc; simpl). reflexivity.
      * unfold bind at 1. unfold get_fs at 1. cbn [fs log].
        rewrite exists_file_write.
        unfold aggregate in A.
        destruct (concat (df :: dfs)) as [comb|] eqn:C; simpl in A;
          [|discriminate].
        apply groupby_agg_ok in A as (_ & _ & Hc & _).
        rewrite Os_show_gui_eq. cbn [fs]. rewrite lookup_write.
        unfold has_column. rewrite Hc. cbn [existsb].
        change (String.eqb FREQ FREQ) with true.
        change (String.eqb MAG FREQ) with false.
        change (String.eqb MAG MAG) with true.
        cbn [orb negb].
        rewrite write_absent by apply exists_file_unlink.
        destruct (Os.window_raises E); unfold with_log;
          cbn [fs log is_ValueError]; f_equal; f_equal;
          repeat (rewrite <- app_assoc; simpl); reflexivity.
    + cbn [fs log]. unfold failure_message. f_equal. f_equal.
      repeat (rewrite <- app_assoc; simpl). reflexivity.
  - unfold bind at 1. unfold get_fs at 1. cbn [fs log].
    rewrite exists_file_unlink. unfold print. cbn [fs log].
    f_equal. f_equal. repeat (rewrite <- app_assoc; simpl). reflexivity.
Qed.

(** When nothing is refused the run is the run of [main] on the outcome
    of the checks of lines 20-25. *)
Lemma Os_main_none (p : Os.path) (st : state) :
  Os.main Os.none p st = main (Os.status p) st.
Proof.
  destruct (Os.usable p) eqn:Hu.
  - rewrite (Os_main_eq Os.none p st Hu). cbv zeta.
    assert (Hs : Os.status p = Dir (Os.path_name p)).
    { unfold Os.usable in Hu. unfold Os.status.
      destruct (Os.path_exists p), (Os.path_is_dir p), (Os.path_readable p);
        try discriminate. reflexivity. }
    rewrite Hs, main_Dir_eq. cbv zeta. cbn [Os.none Os.unlink_raises
      Os.to_csv_raises Os.window_raises]. now rewrite andb_false_r.
  - unfold Os.usable in Hu. unfold Os.main, Os.main_body, Os.status.
    unfold bind at 1. unfold Os.get_directory.
    destruct (Os.path_exists p), (Os.path_is_dir p), (Os.path_readable p);
      try discriminate; reflexivity.
Qed.

End OsFacts.

Section OsProperties.
Context {N : NumOps}.



(** X3. Counting the deletion of line 37, the writing of line 82 and the
    window of lines 101-126 as the calls that can be refused, a run on a
    usable path ends in one of five ways: status 0 after plotting the
    table it has just written; status 0 with the message of line 143 and
    no aggregate file; status 1 with an error message and no aggregate
    file; status 1 with the old aggregate file still in an untouched
    directory, when its deletion is refused; status 1 with the new
    aggregate file written, when the window is refused. *)
Theorem X3_five_ways_to_end :
  forall (E : Os.faults) (p : Os.path) (st : state),
    Os.usable p = true ->
    let r := Os.main E p st in
    let final := final_csv (Os.path_name p) in
    exists (evs : list event) (e : event),
      log (snd r) = log st ++ evs ++ [e] /\
      ((fst r = 0%Z /\
        exists out, e = Plot out /\
                    lookup (fs (snd r)) final = Some (Table out)) \/
       (fst r = 0%Z /\ e = NotGenerated /\ lookup (fs (snd r)) final = None) \/
       (fst r = 1%Z /\
        (exists x, e = ErrorMessage x \/ e = UnknownError x) /\
        lookup (fs (snd r)) final = None) \/
       (fst r = 1%Z /\ e = UnknownError OSError /\
        Os.unlink_raises E = true /\
        exists_file (fs st) final = true /\ fs (snd r) = fs st) \/
       (fst r = 1%Z /\ e = UnknownError TclError /\
        Os.window_raises E = true /\
        exists out, lookup (fs (snd r)) final = Some (Table out))).
Proof.
  intros E p st Hu r final. subst r final.
  rewrite (Os_main_eq E p st Hu). cbv zeta.
  set (d := Os.path_name p).
  destruct (exists_file (fs st) (final_csv d) && Os.unlink_raises E) eqn:U.
  { apply andb_prop in U as [Ux Ur].
    exists [], (UnknownError OSError). split; [reflexivity|].
    right. right. right. left. cbn [fst snd fs with_log]. now repeat split. }
  destruct (inputs d (fs st)) as [|file rest]; cbn [fst snd fs log].
  - exists [removal_message d (fs st)], (ErrorMessage (ValueError NoCsvFiles)).
    split; [reflexivity|]. right. right. left.
    repeat split; [eauto | apply lookup_cleaned].
  - destruct (parses (fs st) file).
    + destruct (aggregate _) as [out|x]; cbn [fst snd fs log].
      * destruct (Os.to_csv_raises E); [|destruct (Os.window_raises E) eqn:W];
          cbn [fst snd fs log].
        -- eexists _, (UnknownError OSError). split; [reflexivity|].
           right. right. left. repeat split; [eauto | apply lookup_cleaned].
        -- exists ((removal_message d (fs st)
                    :: FoundFiles (file :: rest)
                    :: snd (scan (fs st) (file :: rest) []))
                   ++ [Saved (final_csv d)]), (UnknownError TclError). split.
           { rewrite <- app_assoc. reflexivity. }
           right. right. right. right. repeat split.
           exists out. apply lookup_appended.
        -- exists ((removal_message d (fs st)
                    :: FoundFiles (file :: rest)
                    :: snd (scan (fs st) (file :: rest) []))
                   ++ [Saved (final_csv d)]), (Plot out). split.
           { rewrite <- app_assoc. reflexivity. }
           left. split; [reflexivity|]. exists out. split; [reflexivity|].
           apply lookup_appended.
      * eexists _, (failure_message x). split; [reflexivity|].
        right. right. left. repeat split; [|apply lookup_cleaned].
        exists x. unfold failure_message. destruct (is_ValueError x); auto.
    + cbn [fst snd fs log]. eexists _, NotGenerated. split; [reflexivity|].
      right. left. repeat split. apply lookup_cleaned.
Qed.


End OsProperties.

(* ================================================================== *)
(** ** Refused calls on [sweep/] *)

Example sweep_without_display :
  Os.main Sweep.no_display Sweep.dir (Sweep.start Sweep.listing) =
  (1%Z,
   {| fs := [("a.csv", Table Sweep.a_csv); ("b.csv", Table Sweep.b_csv);
             ("notes.txt", Garbled); ("sweep.csv", Table Sweep.sweep_csv)];
      log := [Deleted "sweep.csv"; FoundFiles ["a.csv"; "b.csv"];
              Saved "sweep.csv"; UnknownError TclError] |}).
Proof. vm_compute. reflexivity. Qed.

Example sweep_read_only :
  Os.main Sweep.read_only Sweep.dir (Sweep.start Sweep.listing) =
  (1%Z, {| fs := Sweep.listing; log := [UnknownError OSError] |}).
Proof. vm_compute. reflexivity. Qed.


Lemma X3_witness :
  exists (evs : list event) (e : event),
    log (snd (Os.main Sweep.no_display Sweep.dir (Sweep.start Sweep.listing)))
    = log (Sweep.start Sweep.listing) ++ evs ++ [e] /\
    ((fst (Os.main Sweep.no_display Sweep.dir (Sweep.start Sweep.listing))
      = 0%Z /\
      exists out,
        e = Plot out /\
        lookup (fs (snd (Os.main Sweep.no_display Sweep.dir
                                 (Sweep.start Sweep.listing))))
               (final_csv "sweep") = Some (Table out)) \/
     (fst (Os.main Sweep.no_display Sweep.dir (Sweep.start Sweep.listing))
      = 0%Z /\ e = NotGenerated /\
      lookup (fs (snd (Os.main Sweep.no_display Sweep.dir
                               (Sweep.start Sweep.listing))))
             (final_csv "sweep") = None) \/
     (fst (Os.main Sweep.no_display Sweep.dir (Sweep.start Sweep.listing))
      = 1%Z /\
      (exists x, e = ErrorMessage x \/ e = UnknownError x) /\
      lookup (fs (snd (Os.main Sweep.no_display Sweep.dir
                               (Sweep.start Sweep.listing))))
             (final_csv "sweep") = None) \/
     (fst (Os.main Sweep.no_display Sweep.dir (Sweep.start Sweep.listing))
      = 1%Z /\ e = UnknownError OSError /\
      Os.unlink_raises Sweep.no_display = true /\
      exists_file (fs (Sweep.start Sweep.listing)) (final_csv "sweep") = true /\
      fs (snd (Os.main Sweep.no_display Sweep.dir (Sweep.start Sweep.listing)))
      = fs (Sweep.start Sweep.listing)) \/
     (fst (Os.main Sweep.no_display Sweep.dir (Sweep.start Sweep.listing))
      = 1%Z /\ e = UnknownError TclError /\
      Os.window_raises Sweep.no_display = true /\
      exists out,
        lookup (fs (snd (Os.main Sweep.no_display Sweep.dir
                                 (Sweep.start Sweep.listing))))
               (final_csv "sweep") = Some (Table out))).
Proof.
  exact (X3_five_ways_to_end Sweep.no_display Sweep.dir
                             (Sweep.start Sweep.listing) eq_refl).
Defined.
